(** * Tech-tree visualizer: a shallow embedding of
      [prototypes/tech_tree_visualizer.py] and its specification.

    The Python module reads two tab-separated tables (tech nodes and parts),
    joins parts to nodes and describes a graph to graphviz.  It is embedded
    function by function:

    - A Python [str] is the [string] of its UTF-8 bytes, as the tables
      are decoded from UTF-8.  Equality, order, prefixes, splitting at a
      comma and [html.escape] are the same on the bytes as on the
      characters.  [str.strip] and [int] look at
      characters: they are embedded with the white space and the decimal
      digits of all of Unicode (as of Python 3.11, Unicode 14), and [int]
      with its limit of 4300 digits.
    - A Python [dict] is an insertion-ordered association list ([Dict]).
    - The dict of one tech node and of one part are records.  Part records
      are objects shared between the input list, the nodes' lists and the
      unassigned list: they live in a store and lists hold references.
    - The mapping of tech nodes is changed in place by
      [assign_parts_to_nodes]; the embedding passes the mapping in and
      hands the changed mapping back.  Every key has a node of its own and
      every node a parts list of its own, as [read_tech_tree] builds them.
    - Exceptions are values of [exn]; code that can raise returns [result],
      code that also touches the store or produces output runs in [Py].
    - [urllib], [open], [csv.DictReader] and graphviz are collaborators
      outside the module: their answers are fields of [World]. *)

From Stdlib Require Import List String Ascii ZArith Bool Arith Lia Permutation.
Import ListNotations.

Local Open Scope string_scope.
Local Open Scope list_scope.

(** Python [+] on strings. *)
Local Infix "+++" := String.append (at level 60, right associativity).

(* ================================================================== *)
(** ** Strings as Python sees them *)

Module PyStr.

(** The double quote, which occurs in the label markup. *)
Definition dq : string := String (ascii_of_nat 34) EmptyString.

(** Truth value of a string: non-empty. *)
Definition truthy (s : string) : bool :=
  match s with
  | EmptyString => false
  | String _ _ => true
  end.


(** The blanks that [int] skips around a literal (C [isspace]): the
    separators FS..US are not among them. *)
Definition is_int_space (c : ascii) : bool :=
  let n := nat_of_ascii c in
  (((9 <=? n) && (n <=? 13)) || (n =? 32))%nat.

Section Strip.
Variable blank : ascii -> bool.

Fixpoint lstrip_by (s : string) : string :=
  match s with
  | EmptyString => EmptyString
  | String c r => if blank c then lstrip_by r else s
  end.

Fixpoint rstrip_by (s : string) : string :=
  match s with
  | EmptyString => EmptyString
  | String c r =>
      match rstrip_by r with
      | EmptyString => if blank c then EmptyString else String c EmptyString
      | r' => String c r'
      end
  end.

Definition strip_by (s : string) : string := rstrip_by (lstrip_by s).

End Strip.

(** *** Characters beyond ASCII *)

Definition byte (n : N) : ascii := ascii_of_N n.

(** The UTF-8 bytes of a code point. *)
Definition utf8 (cp : N) : string :=
  (if cp <? 128 then String (byte cp) ""
   else if cp <? 2048 then
     String (byte (192 + cp / 64)) (String (byte (128 + cp mod 64)) "")
   else if cp <? 65536 then
     String (byte (224 + cp / 4096))
            (String (byte (128 + (cp / 64) mod 64))
                    (String (byte (128 + cp mod 64)) ""))
   else
     String (byte (240 + cp / 262144))
            (String (byte (128 + (cp / 4096) mod 64))
                    (String (byte (128 + (cp / 64) mod 64))
                            (String (byte (128 + cp mod 64)) ""))))%N.

(** The code points for which [str.isspace] holds: those of ASCII, NEL,
    the no-break space, the Ogham space mark, the spaces U+2000 to U+200A,
    the line and paragraph separators, the narrow no-break space, the
    medium mathematical space and the ideographic space. *)
Definition space_code_points : list N :=
  [9; 10; 11; 12; 13; 28; 29; 30; 31; 32; 133; 160; 5760;
   8192; 8193; 8194; 8195; 8196; 8197; 8198; 8199; 8200; 8201; 8202;
   8232; 8233; 8239; 8287; 12288]%N.

(** White space as it stands in a string. *)
Definition blanks : list string := map utf8 space_code_points.

(** [s] backwards. *)
Fixpoint rev (s : string) : string :=
  match s with
  | EmptyString => EmptyString
  | String c r => rev r +++ String c EmptyString
  end.

(** [s] without the prefix [p], when it begins with [p]. *)
Fixpoint drop_prefix (p s : string) : option string :=
  match p with
  | EmptyString => Some s
  | String a p' =>
      match s with
      | EmptyString => None
      | String b s' => if Ascii.eqb a b then drop_prefix p' s' else None
      end
  end.

(** [s] without the entry of [table] it begins with, if there is one. *)
Fixpoint skip_one (table : list string) (s : string) : option string :=
  match table with
  | [] => None
  | b :: rest =>
      match drop_prefix b s with
      | Some r => Some r
      | None => skip_one rest s
      end
  end.

(** Entries of [table] are taken from the front of [s] while there are
    any; [fuel] bounds the number of turns. *)
Fixpoint lskip (table : list string) (fuel : nat) (s : string) : string :=
  match fuel with
  | O => s
  | S fuel' =>
      match skip_one table s with
      | Some r => lskip table fuel' r
      | None => s
      end
  end.

(** [s.lstrip()], [s.rstrip()] and [s.strip()] *)
Definition lstrip (s : string) : string := lskip blanks (String.length s) s.

Definition rstrip (s : string) : string :=
  rev (lskip (map rev blanks) (String.length s) (rev s)).

Definition strip (s : string) : string := rstrip (lstrip s).

(** The code points of a string.  Bytes that are no UTF-8 (which no
    [str] has) give the replacement character. *)
Definition continuation (b : ascii) : bool :=
  let n := N_of_ascii b in ((128 <=? n) && (n <? 192))%N.

Definition low6 (b : ascii) : N := (N_of_ascii b - 128)%N.

Definition no_char : N := 65533%N.

Definition in_range (lo hi cp : N) : N :=
  if ((lo <=? cp) && (cp <=? hi))%N then cp else no_char.

Fixpoint code_points (s : string) : list N :=
  match s with
  | EmptyString => []
  | String b1 r1 =>
      let n1 := N_of_ascii b1 in
      if (n1 <? 128)%N then n1 :: code_points r1
      else
        match r1 with
        | EmptyString => [no_char]
        | String b2 r2 =>
            if ((194 <=? n1) && (n1 <? 224))%N && continuation b2
            then ((n1 - 192) * 64 + low6 b2)%N :: code_points r2
            else
              match r2 with
              | EmptyString => no_char :: code_points r1
              | String b3 r3 =>
                  if ((224 <=? n1) && (n1 <? 240))%N
                     && continuation b2 && continuation b3
                  then
                    (let cp := ((n1 - 224) * 4096 + low6 b2 * 64 + low6 b3)%N in
                     if ((55296 <=? cp) && (cp <=? 57343))%N then no_char
                     else in_range 2048 65535 cp)
                    :: code_points r3
                  else
                    match r3 with
                    | EmptyString => no_char :: code_points r1
                    | String b4 r4 =>
                        if ((240 <=? n1) && (n1 <? 245))%N
                           && continuation b2 && continuation b3 && continuation b4
                        then
                          in_range 65536 1114111
                                   ((n1 - 240) * 262144 + low6 b2 * 4096
                                    + low6 b3 * 64 + low6 b4)%N
                          :: code_points r4
                        else no_char :: code_points r1
                    end
              end
        end
  end.

(** [s.split(sep)] for a one-character separator: the pieces between the
    separators, empty pieces included; never the empty list. *)
Fixpoint split (sep : ascii) (s : string) : list string :=
  match s with
  | EmptyString => [EmptyString]
  | String c r =>
      if Ascii.eqb c sep then EmptyString :: split sep r
      else match split sep r with
           | [] => [String c EmptyString]
           | p :: ps => String c p :: ps
           end
  end.

(** [sep.join(pieces)] *)
Fixpoint join (sep : string) (pieces : list string) : string :=
  match pieces with
  | [] => EmptyString
  | [p] => p
  | p :: ps => p +++ sep +++ join sep ps
  end.

(** [s.startswith(p)] *)
Definition startswith (s p : string) : bool := String.prefix p s.

(** [html.escape(s)] with its default [quote=True]. *)
Definition escape_char (c : ascii) : string :=
  match nat_of_ascii c with
  | 38 => "&amp;"
  | 60 => "&lt;"
  | 62 => "&gt;"
  | 34 => "&quot;"
  | 39 => "&#x27;"
  | _ => String c EmptyString
  end.

Fixpoint html_escape (s : string) : string :=
  match s with
  | EmptyString => EmptyString
  | String c r => escape_char c +++ html_escape r
  end.

(** [int(s)] in base ten.  Every character that is no ASCII is first
    replaced: white space by a blank, a decimal digit of any script by the
    ASCII digit of its value, anything else by a question mark.  Of the
    result the surrounding blanks (those of C [isspace]: the separators
    FS..US are not among them) and one optional sign are taken off; what
    is left must be decimal digits, where single underscores may separate
    digits, and at most 4300 digits.  [None] stands for [ValueError]. *)
Definition is_digit (c : ascii) : bool :=
  let n := nat_of_ascii c in ((48 <=? n) && (n <=? 57))%nat.

Definition digit_value (c : ascii) : Z := Z.of_nat (nat_of_ascii c - 48).

Fixpoint digits (after_digit : bool) (acc : Z) (s : string) : option Z :=
  match s with
  | EmptyString => if after_digit then Some acc else None
  | String c r =>
      if is_digit c then digits true (10 * acc + digit_value c) r
      else if Ascii.eqb c "_" then
             if after_digit then digits false acc r else None
           else None
  end.

(** The code points of the digit zero in the scripts that have decimal
    digits; the nine code points after each are its digits 1 to 9. *)
Definition zero_digits : list N :=
  [48; 1632; 1776; 1984; 2406; 2534; 2662; 2790; 2918; 3046; 3174; 3302; 3430;
   3558; 3664; 3792; 3872; 4160; 4240; 6112; 6160; 6470; 6608; 6784; 6800; 6992;
   7088; 7232; 7248; 42528; 43216; 43264; 43472; 43504; 43600; 44016; 65296;
   66720; 68912; 69734; 69872; 69942; 70096; 70384; 70736; 70864; 71248; 71360;
   71472; 71904; 72016; 72784; 73040; 73120; 92768; 92864; 93008; 120782;
   120792; 120802; 120812; 120822; 123200; 123632; 125264; 130032]%N.

Definition decimal_value (cp : N) : option N :=
  match find (fun zero => ((zero <=? cp) && (cp <? zero + 10))%N) zero_digits with
  | Some zero => Some (cp - zero)%N
  | None => None
  end.

Definition is_unicode_space (cp : N) : bool := existsb (N.eqb cp) space_code_points.

Definition ascii_char (cp : N) : ascii :=
  if (cp <? 128)%N then byte cp
  else if is_unicode_space cp then " "%char
  else match decimal_value cp with
       | Some d => byte (48 + d)
       | None => "?"%char
       end.

Definition ascii_form (s : string) : string :=
  string_of_list_ascii (map ascii_char (code_points s)).

(** The literal read once it is ASCII. *)
Definition read_literal (s : string) : option Z :=
  match strip_by is_int_space s with
  | String "+" r => digits false 0 r
  | String "-" r => option_map Z.opp (digits false 0 r)
  | t => digits false 0 t
  end.

Definition digit_count (s : string) : nat :=
  List.length (filter is_digit (list_ascii_of_string s)).

Definition max_str_digits : N := 4300.

Definition int (s : string) : option Z :=
  match read_literal (ascii_form s) with
  | Some z =>
      if (N.of_nat (digit_count (ascii_form s)) <=? max_str_digits)%N
      then Some z else None
  | None => None
  end.

(** [str(n)] for a length. *)
Fixpoint nat_digits (fuel n : nat) (acc : string) : string :=
  match fuel with
  | O => acc
  | S fuel' =>
      let acc' := String (ascii_of_nat (48 + n mod 10)) acc in
      if (n / 10 =? 0)%nat then acc' else nat_digits fuel' (n / 10) acc'
  end.

Definition of_nat (n : nat) : string := nat_digits (S n) n EmptyString.

End PyStr.

(* ================================================================== *)
(** ** Exceptions and results *)

Inductive exn : Type :=
| KeyError (key : string)          (* subscript with a missing key *)
| ValueError (literal : string)    (* [int] on a literal it cannot read,
                                      [open] on a name with a NUL *)
| NameError (name : string)        (* a name that was never bound *)
| FileNotFoundError                (* [open]: no such file *)
| OSError (errno : nat)            (* [open]: any other failure of the
                                      system, subclasses included *)
| URLError (reason : string).      (* [urlopen] failed *)

Inductive result (A : Type) : Type :=
| Ok (a : A)
| Raise (e : exn).
Arguments Ok {A} a.
Arguments Raise {A} e.

Definition rbind {A B} (c : result A) (k : A -> result B) : result B :=
  match c with
  | Ok a => k a
  | Raise e => Raise e
  end.

Notation "'let?' x ':=' c 'in' k" := (rbind c (fun x => k))
  (at level 10, x name, c at level 100, k at level 200).
Notation "'let?' ' pat ':=' c 'in' k" :=
  (rbind c (fun x => match x with pat => k end))
  (at level 10, pat pattern, c at level 100, k at level 200).

(** The two kinds of format error of the tables: a column that is missing
    and a tier that is not a number. *)
Definition format_error (e : exn) : Prop :=
  match e with
  | KeyError _ | ValueError _ => True
  | _ => False
  end.

(* ================================================================== *)
(** ** Dictionaries

    A Python [dict] keeps its keys in insertion order; assigning to a key
    that is there replaces the value and leaves the key at its place. *)

Module Dict.
Section Ops.
Context {V : Type}.

Definition t := list (string * V).

(** [d.get(k)], [None] when [d[k]] would raise [KeyError]. *)
Fixpoint get (d : t) (k : string) : option V :=
  match d with
  | [] => None
  | (k', v) :: r => if String.eqb k' k then Some v else get r k
  end.

(** [k in d] *)
Definition contains (d : t) (k : string) : bool :=
  match get d k with
  | Some _ => true
  | None => false
  end.

(** [d[k] = v] *)
Fixpoint set (d : t) (k : string) (v : V) : t :=
  match d with
  | [] => [(k, v)]
  | (k', v') :: r =>
      if String.eqb k' k then (k', v) :: r else (k', v') :: set r k v
  end.

(** In-place change of the object stored under [k] (as in
    [d[k]['parts'].append(x)]); [d] must contain [k]. *)
Fixpoint update (d : t) (k : string) (f : V -> V) : t :=
  match d with
  | [] => []
  | (k', v) :: r =>
      if String.eqb k' k then (k', f v) :: r else (k', v) :: update r k f
  end.

Definition keys (d : t) : list string := map fst d.
Definition values (d : t) : list V := map snd d.
Definition items (d : t) : list (string * V) := d.

(** What holds of every Python dict: no key occurs twice. *)
Definition wf (d : t) : Prop := NoDup (keys d).
End Ops.
Arguments t V : clear implicits.
End Dict.

(** [d[k]] *)
Definition subscript {V} (d : Dict.t V) (k : string) : result V :=
  match Dict.get d k with
  | Some v => Ok v
  | None => Raise (KeyError k)
  end.

(** [sorted(keys)] on strings: by code point, shorter prefix first. *)
Fixpoint insert_sorted (k : string) (l : list string) : list string :=
  match l with
  | [] => [k]
  | x :: r => if String.leb k x then k :: l else x :: insert_sorted k r
  end.

Definition sorted (l : list string) : list string :=
  fold_right insert_sorted [] l.

(* ================================================================== *)
(** ** Data model *)

(** One row as [csv.DictReader] yields it: column name to cell.  A row
    has the cells of the header's columns, so a table lacks a column in
    all of its rows or in none.  Every cell is a string.  Outside the
    embedding are the lines with fewer cells than the header: the reader
    fills their missing cells with [None], on which [int] raises
    [TypeError] and [split] raises [AttributeError], and which
    [read_parts_catalog] stores as they are.  Cells beyond the header,
    which the reader keeps under the key [None], are never looked at. *)
Definition Row := Dict.t string.

(** A reference to a part record. *)
Definition PartRef := nat.

(** The dict built by [read_parts_catalog] for one row. *)
Record Part : Type := {
  category : string;
  name : string;
  tech_node : option string;   (* a string or [None] *)
  size : string
}.

(** The dict built by [read_tech_tree] for one row. *)
Record TechNode : Type := {
  tier : Z;
  description : string;
  prerequisites : list string;
  parts : list PartRef
}.

Definition TechNodes := Dict.t TechNode.

(** [node['parts'].append(part)] *)
Definition parts_append (part : PartRef) (node : TechNode) : TechNode :=
  {| tier := tier node;
     description := description node;
     prerequisites := prerequisites node;
     parts := parts node ++ [part] |}.

(* ------------------------------------------------------------------ *)
(** *** What graphviz is told

    A [Digraph] records the calls made on it, in order. *)

Definition attrs := list (string * string).

Inductive stmt : Type :=
| Attr (kw : option string) (a : attrs)    (* [dot.attr(kw, **a)] *)
| Node (id : string) (a : attrs)           (* [dot.node(id, **a)] *)
| Edge (tail head : string).               (* [dot.edge(tail, head)] *)

(** [subgraphs] are the bodies built under [with dot.subgraph(name=...)],
    which hold no edges and no further subgraphs in this program. *)
Record Digraph : Type := {
  comment : string;
  format : string;
  body : list stmt;
  subgraphs : list (string * list stmt)
}.

Definition call (s : stmt) (dot : Digraph) : Digraph :=
  {| comment := comment dot; format := format dot;
     body := body dot ++ [s]; subgraphs := subgraphs dot |}.

Definition add_subgraph (id : string) (inner : list stmt) (dot : Digraph) : Digraph :=
  {| comment := comment dot; format := format dot;
     body := body dot; subgraphs := subgraphs dot ++ [(id, inner)] |}.

Definition edges_of (l : list stmt) : list (string * string) :=
  flat_map (fun s => match s with Edge a b => [(a, b)] | _ => [] end) l.

Definition nodes_of (l : list stmt) : list (string * attrs) :=
  flat_map (fun s => match s with Node i a => [(i, a)] | _ => [] end) l.

(** The edges and nodes of the top-level graph. *)
Definition edges (dot : Digraph) : list (string * string) := edges_of (body dot).
Definition nodes (dot : Digraph) : list (string * attrs) := nodes_of (body dot).

(* ------------------------------------------------------------------ *)
(** *** Program state and the outside world *)

(** What the program lets out. *)
Inductive event : Type :=
| Print (line : string)
| Render (dot : Digraph) (filename : string)    (* [graph.render] *)
| WriteFile (path : string) (text : string).

Definition writes_file (e : event) : bool :=
  match e with
  | Print _ => false
  | Render _ _ | WriteFile _ _ => true
  end.

(** The store of part records, and the output so far. *)
Record State : Type := {
  next_ref : PartRef;
  part_at : PartRef -> Part;
  output : list event
}.

(** The collaborators.  [open_read p] is the text of the file [p], or the
    exception [open(p, 'r')] raises; [open_write_error p] is the exception
    [open(p, 'w')] raises, if it raises one; [DictReader text] are the rows
    [csv.DictReader(..., delimiter='\t')] yields for [text]. *)
Record World : Type := {
  urlopen_read : string -> result string;
  open_read : string -> result string;
  open_write_error : string -> option exn;
  DictReader : string -> list Row;
  render_error : Digraph -> option exn;
  source : Digraph -> string
}.

(** Computations on the state that may raise.  The state survives an
    exception: what was printed or written before stays so. *)
Definition Py (A : Type) : Type := State -> result A * State.

Definition ret {A} (a : A) : Py A := fun st => (Ok a, st).

Definition raise {A} (e : exn) : Py A := fun st => (Raise e, st).

Definition bind {A B} (c : Py A) (k : A -> Py B) : Py B :=
  fun st =>
    match c st with
    | (Ok a, st') => k a st'
    | (Raise e, st') => (Raise e, st')
    end.

Notation "x <- c ;; k" := (bind c (fun x => k))
  (at level 61, c at next level, right associativity).
Notation "' pat <- c ;; k" :=
  (bind c (fun x => match x with pat => k end))
  (at level 61, pat pattern, c at next level, right associativity).
Notation "c ;; k" := (bind c (fun _ => k))
  (at level 61, right associativity).

Definition lift {A} (c : result A) : Py A := fun st => (c, st).

(** [part[...]]: read the record behind a reference. *)
Definition deref (r : PartRef) : Py Part := fun st => (Ok (part_at st r), st).

(** A new record, and the reference to it. *)
Definition alloc (p : Part) : Py PartRef :=
  fun st =>
    let r := next_ref st in
    (Ok r,
     {| next_ref := S r;
        part_at := fun r' => if Nat.eqb r' r then p else part_at st r';
        output := output st |}).

Definition emit (e : event) : Py unit :=
  fun st =>
    (Ok tt,
     {| next_ref := next_ref st;
        part_at := part_at st;
        output := output st ++ [e] |}).

Definition print (line : string) : Py unit := emit (Print line).

(** A [for] loop with an accumulator. *)
Fixpoint for_each {A X} (body : A -> X -> Py A) (xs : list X) (acc : A) : Py A :=
  match xs with
  | [] => ret acc
  | x :: rest => acc' <- body acc x ;; for_each body rest acc'
  end.

(* ================================================================== *)
(** ** The program *)

Definition BASE_URL : string :=
  "https://docs.google.com/spreadsheets/d/e/2PACX-1vRA2AQx4X9PZyyoU5mMV18MdB-OI50dx-AdShkBqMKqSaa8dFhb3USE5vtUF1JlPBjkTZFouuyF3Quj/pub?output=tsv".
Definition PARTS_LIST_URL : string := BASE_URL +++ "&gid=22599298".
Definition TECH_TREE_URL : string := BASE_URL +++ "&gid=1681045610".

Section Program.
Variable W : World.

Definition fetch_tsv_from_url (url : string) : result string :=
  urlopen_read W url.

(** The reader both [read_*] functions build from [data_source] (the
    same text in both).  [except FileNotFoundError] catches that
    exception alone; the file handle and its [close] are left out. *)
Definition reader_of (data_source : string) : result (list Row) :=
  if PyStr.startswith data_source "http://"
     || PyStr.startswith data_source "https://"
  then
    let? tsv_data := fetch_tsv_from_url data_source in
    Ok (DictReader W tsv_data)
  else
    match open_read W data_source with
    | Ok f => Ok (DictReader W f)
    | Raise FileNotFoundError => Ok (DictReader W data_source)
    | Raise e => Raise e
    end.

(** [int(row['Tier'])] *)
Definition int_of (s : string) : result Z :=
  match PyStr.int s with
  | Some z => Ok z
  | None => Raise (ValueError s)
  end.

(** [[p.strip() for p in field.split(',') if p.strip()]] *)
Definition prerequisites_of (field : string) : list string :=
  map PyStr.strip
      (filter (fun p => PyStr.truthy (PyStr.strip p)) (PyStr.split "," field)).

(** The body of the loop of [read_tech_tree]: the key and the node made
    from one row, in the order the subscripts are evaluated. *)
Definition tech_node_of_row (row : Row) : result (string * TechNode) :=
  let? node_name := subscript row "Node" in
  let? tier_field := subscript row "Tier" in
  let? tier_value := int_of tier_field in
  let? description_field := subscript row "Description" in
  let? prerequisites_field := subscript row "Prerequisites" in
  Ok (node_name,
      {| tier := tier_value;
         description := description_field;
         prerequisites := prerequisites_of prerequisites_field;
         parts := [] |}).

Fixpoint read_tech_tree_rows (reader : list Row) (tech_nodes : TechNodes)
  : result TechNodes :=
  match reader with
  | [] => Ok tech_nodes
  | row :: rest =>
      let? '(node_name, node) := tech_node_of_row row in
      read_tech_tree_rows rest (Dict.set tech_nodes node_name node)
  end.

Definition read_tech_tree (data_source : string) : result TechNodes :=
  let tech_nodes := [] in
  let? reader := reader_of data_source in
  read_tech_tree_rows reader tech_nodes.

(** The dict literal of [read_parts_catalog]. *)
Definition part_of_row (row : Row) : result Part :=
  let? category_field := subscript row "Category" in
  let? name_field := subscript row "Name" in
  let? tech_node_field := subscript row "Tech Node" in
  let? size_field := subscript row "Size" in
  Ok {| category := category_field;
        name := name_field;
        tech_node := if PyStr.truthy tech_node_field
                     then Some (PyStr.strip tech_node_field)
                     else None;
        size := size_field |}.

Definition read_parts_catalog_rows (reader : list Row) (parts : list PartRef)
  : Py (list PartRef) :=
  for_each
    (fun parts row =>
       record <- lift (part_of_row row) ;;
       part <- alloc record ;;
       ret (parts ++ [part]))
    reader parts.

Definition read_parts_catalog (data_source : string) : Py (list PartRef) :=
  let parts := [] in
  reader <- lift (reader_of data_source) ;;
  read_parts_catalog_rows reader parts.

(** The body of the loop of [assign_parts_to_nodes].  The test is
    [part['tech_node'] and part['tech_node'] in tech_nodes]: [None] and
    the empty string are false.  The function changes [tech_nodes] in
    place; here the changed mapping is returned next to the unassigned
    list. *)
Definition assign_part (acc : TechNodes * list PartRef) (part : PartRef)
  : Py (TechNodes * list PartRef) :=
  let '(tech_nodes, unassigned_parts) := acc in
  record <- deref part ;;
  match tech_node record with
  | Some key =>
      if PyStr.truthy key && Dict.contains tech_nodes key
      then ret (Dict.update tech_nodes key (parts_append part), unassigned_parts)
      else ret (tech_nodes, unassigned_parts ++ [part])
  | None => ret (tech_nodes, unassigned_parts ++ [part])
  end.

Definition assign_parts_to_nodes (tech_nodes : TechNodes) (parts : list PartRef)
  : Py (TechNodes * list PartRef) :=
  let unassigned_parts := [] in
  for_each assign_part parts (tech_nodes, unassigned_parts).

(** Lines 126-131: what one part adds to the label of its node. *)
Definition node_label_part (label : string) (part : PartRef) : Py string :=
  record <- deref part ;;
  let part_name := PyStr.html_escape (name record) in
  let part_size :=
    if PyStr.truthy (size record) then PyStr.html_escape (size record) else "" in
  let label := label +++ "<BR/>  • " +++ part_name in
  if PyStr.truthy part_size
  then ret (label +++ " (" +++ part_size +++ ")")
  else ret label.

(** Lines 122-134. *)
Definition node_label (node_name : string) (node_data : TechNode) : Py string :=
  let label := "<B>" +++ PyStr.html_escape node_name +++ "</B>" in
  label <-
    match parts node_data with
    | [] => ret label
    | _ :: _ =>
        let label := label +++ "<BR/><FONT POINT-SIZE=" +++ PyStr.dq +++ "9" +++ PyStr.dq +++ ">" in
        label <- for_each node_label_part (parts node_data) label ;;
        ret (label +++ "</FONT>")
    end ;;
  ret ("<" +++ label +++ ">").

(** Lines 120-136. *)
Definition add_tech_nodes (tech_nodes : TechNodes) (dot : Digraph) : Py Digraph :=
  for_each
    (fun dot '(node_name, node_data) =>
       label <- node_label node_name node_data ;;
       ret (call (Node node_name [("label", label); ("fillcolor", "lightblue")]) dot))
    (Dict.items tech_nodes) dot.

(** Lines 139-142. *)
Definition add_prerequisite_edges (tech_nodes : TechNodes) (dot : Digraph) : Digraph :=
  fold_left
    (fun dot '(node_name, node_data) =>
       fold_left
         (fun dot prereq =>
            if Dict.contains tech_nodes prereq
            then call (Edge prereq node_name) dot
            else dot)
         (prerequisites node_data) dot)
    (Dict.items tech_nodes) dot.

(** Lines 150-155. *)
Definition group_by_category (unassigned_parts : list PartRef)
  : Py (Dict.t (list PartRef)) :=
  for_each
    (fun by_category part =>
       record <- deref part ;;
       let cat := category record in
       let by_category :=
         if negb (Dict.contains by_category cat)
         then Dict.set by_category cat []
         else by_category in
       ret (Dict.update by_category cat (fun l => l ++ [part])))
    unassigned_parts [].

(** Lines 160-164.  The format string of line 161 reads [size_str], a
    name bound nowhere in the module: evaluating it raises [NameError],
    after [part["name"]] was read and escaped.  Lines 162-164 are never
    reached. *)
Definition unassigned_label_part (label_parts : list string) (part : PartRef)
  : Py (list string) :=
  record <- deref part ;;
  let _ := PyStr.html_escape (name record) in
  raise (NameError "size_str").

(** Lines 157-164. *)
Definition unassigned_label_parts (by_category : Dict.t (list PartRef))
  : Py (list string) :=
  for_each
    (fun label_parts category =>
       let label_parts :=
         label_parts ++ ["<B>" +++ PyStr.html_escape category +++ ":</B>"] in
       members <- lift (subscript by_category category) ;;
       for_each unassigned_label_part members label_parts)
    (sorted (Dict.keys by_category)) [].

(** Lines 145-168. *)
Definition add_unassigned_cluster (unassigned_parts : list PartRef) (dot : Digraph)
  : Py Digraph :=
  match unassigned_parts with
  | [] => ret dot
  | _ :: _ =>
      let c := [Attr None [("label", "Unassigned Parts"); ("style", "filled");
                           ("fillcolor", "lightyellow")]] in
      by_category <- group_by_category unassigned_parts ;;
      label_parts <- unassigned_label_parts by_category ;;
      let label :=
        "<FONT POINT-SIZE=" +++ PyStr.dq +++ "10" +++ PyStr.dq +++ ">"
        +++ PyStr.join "<BR/>" label_parts +++ "</FONT>" in
      let label := "<" +++ label +++ ">" in
      let c := c ++ [Node "unassigned" [("label", label); ("shape", "box");
                                        ("fillcolor", "lightyellow")]] in
      ret (add_subgraph "cluster_unassigned" c dot)
  end.

(** Lines 114-117. *)
Definition new_digraph : Digraph :=
  let dot := {| comment := "Tech Tree"; format := "png"; body := []; subgraphs := [] |} in
  let dot := call (Attr None [("rankdir", "TB"); ("ranksep", "1.0"); ("nodesep", "0.5")]) dot in
  let dot := call (Attr (Some "node")
                        [("shape", "box"); ("style", "rounded,filled");
                         ("fillcolor", "lightblue"); ("fontname", "Arial")]) dot in
  call (Attr (Some "edge") [("color", "darkblue"); ("arrowsize", "0.8")]) dot.

Definition create_tech_tree_graph (tech_nodes : TechNodes) (unassigned_parts : list PartRef)
  : Py Digraph :=
  let dot := new_digraph in
  dot <- add_tech_nodes tech_nodes dot ;;
  let dot := add_prerequisite_edges tech_nodes dot in
  add_unassigned_cluster unassigned_parts dot.

(** [graph.render(output_file, cleanup=True)] *)
Definition render (graph : Digraph) (filename : string) : Py unit :=
  emit (Render graph filename) ;;
  match render_error W graph with
  | Some e => raise e
  | None => ret tt
  end.

(** [with open(path, 'w') as f: f.write(text)].  Opening may fail; once
    the file is open, writing and closing are taken to succeed. *)
Definition write_text (path text : string) : Py unit :=
  match open_write_error W path with
  | Some e => raise e
  | None => emit (WriteFile path text)
  end.

Definition main : Py unit :=
  print "Fetching tech tree from Google Sheets..." ;;
  tech_nodes <- lift (read_tech_tree TECH_TREE_URL) ;;
  print "Fetching parts catalog from Google Sheets..." ;;
  parts <- read_parts_catalog PARTS_LIST_URL ;;
  print "Assigning parts to tech nodes..." ;;
  '(tech_nodes, unassigned_parts) <- assign_parts_to_nodes tech_nodes parts ;;
  print ("Found " +++ PyStr.of_nat (List.length tech_nodes) +++ " tech nodes and "
         +++ PyStr.of_nat (List.length parts) +++ " parts") ;;
  print (PyStr.of_nat (List.length unassigned_parts) +++ " parts are unassigned") ;;
  print "Generating visualization..." ;;
  graph <- create_tech_tree_graph tech_nodes unassigned_parts ;;
  let output_file := "tech_tree" in
  render graph output_file ;;
  print ("Graph saved as " +++ output_file +++ ".png") ;;
  write_text (output_file +++ ".dot") (source W graph) ;;
  print ("Graph source saved as " +++ output_file +++ ".dot").

End Program.

(* ================================================================== *)
(** ** Fixtures for concrete runs *)

Module Fixture.

(** What [csv.DictReader(..., delimiter='\t')] yields for text without
    quote characters and carriage returns in which no line after the
    first has fewer cells than the first: the first line gives the field
    names (none when it is empty), empty lines after it are skipped, and
    the cells of a line are paired with the names, cells beyond the names
    being left out. *)
Definition plain_DictReader (text : string) : list Row :=
  match PyStr.split (ascii_of_nat 10) text with
  | [] => []
  | header :: lines =>
      let fieldnames :=
        if PyStr.truthy header then PyStr.split (ascii_of_nat 9) header else [] in
      map (fun line =>
             fold_left (fun d '(k, v) => Dict.set d k v)
                       (combine fieldnames (PyStr.split (ascii_of_nat 9) line)) [])
          (filter PyStr.truthy lines)
  end.

Definition tab : string := String (ascii_of_nat 9) EmptyString.
Definition nl : string := String (ascii_of_nat 10) EmptyString.

(** One line of a table. *)
Definition line (cells : list string) : string := PyStr.join tab cells +++ nl.

(** [open(path, 'r')] on Linux when the current directory is the root
    and holds nothing.  A name with a NUL is refused with [ValueError], one
    of more than 4095 bytes with [OSError] (errno 36, name too long).  The
    other names are walked part by part: the parts [.], [..] and the empty
    part stay in the directory; the first other part is refused with errno
    36 when it has more than 255 bytes and is not found otherwise.  A name
    of such parts only is the directory ([IsADirectoryError], errno 21);
    the empty name is not found. *)
Definition stays (component : string) : bool :=
  String.eqb component "" || String.eqb component "." || String.eqb component "..".

Fixpoint walk (components : list string) : exn :=
  match components with
  | [] => OSError 21
  | component :: rest =>
      if stays component then walk rest
      else if (N.of_nat (String.length component) <=? 255)%N then FileNotFoundError
      else OSError 36
  end.

Definition no_files (path : string) : result string :=
  if existsb (Ascii.eqb Ascii.zero) (list_ascii_of_string path)
  then Raise (ValueError path)
  else if (N.of_nat (String.length path) <=? 4095)%N then
    if String.eqb path "" then Raise FileNotFoundError
    else Raise (walk (PyStr.split "/" path))
  else Raise (OSError 36).

(** A world that serves [tree] and [catalog] at the two published
    addresses, has no local files, and in which graphviz works. *)
Definition world (tree catalog : string) : World :=
  {| urlopen_read := fun url =>
       if String.eqb url TECH_TREE_URL then Ok tree
       else if String.eqb url PARTS_LIST_URL then Ok catalog
       else Raise (URLError url);
     open_read := no_files;
     open_write_error := fun _ => None;
     DictReader := plain_DictReader;
     render_error := fun _ => None;
     source := fun dot => comment dot |}.

Definition no_part : Part :=
  {| category := ""; name := ""; tech_node := None; size := "" |}.

(** A start state: nothing allocated, nothing let out. *)
Definition start : State :=
  {| next_ref := 0; part_at := fun _ => no_part; output := [] |}.

(** A store that holds the given records at the references 0, 1, ... *)
Definition store (records : list Part) : State :=
  {| next_ref := List.length records;
     part_at := fun r => nth r records no_part;
     output := [] |}.

(** A node without prerequisites and parts. *)
Definition leaf (t : Z) : TechNode :=
  {| tier := t; description := ""; prerequisites := []; parts := [] |}.

(** The parts of the scenario, and one whose node field is the empty
    string (read from a cell of blanks). *)
Definition engine : Part :=
  {| category := "Engine"; name := "E1"; tech_node := Some "A"; size := "Small" |}.
Definition fuel : Part :=
  {| category := "Fuel"; name := "F1"; tech_node := None; size := "" |}.
Definition tank : Part :=
  {| category := "Fuel"; name := "F2"; tech_node := Some ""; size := "" |}.

Definition tree_header : string := line ["Node"; "Tier"; "Description"; "Prerequisites"].
Definition catalog_header : string := line ["Category"; "Name"; "Tech Node"; "Size"].

(** The tables of the scenario of the specification: nodes A and B, B
    after A; one engine for A and one part without a node. *)
Definition tree_AB : string :=
  tree_header +++ line ["A"; "0"; "first"; ""] +++ line ["B"; "1"; "second"; "A"].
Definition catalog_E1_F1 : string :=
  catalog_header +++ line ["Engine"; "E1"; "A"; "Small"] +++ line ["Fuel"; "F1"; ""; ""].
Definition catalog_E1 : string :=
  catalog_header +++ line ["Engine"; "E1"; "A"; "Small"].

(** A tree in which the name B occurs twice, and one with a tier that is
    no number. *)
Definition tree_ABB : string :=
  tree_header +++ line ["A"; "0"; "first"; ""] +++ line ["B"; "1"; "second"; "A"]
  +++ line ["B"; "2"; "third"; "A, Z ,,A"].
Definition tree_abc : string :=
  tree_header +++ line ["A"; "0"; "first"; ""] +++ line ["B"; "abc"; "second"; "A"].

(** A catalog with a part whose node cell is one blank. *)
Definition catalog_blank : string :=
  catalog_header +++ line ["Engine"; "E1"; "A"; "Small"] +++ line ["Fuel"; "F2"; " "; ""].

(** A tree of thirty nodes, as inline text: more than 255 characters. *)
Definition tree_thirty : string :=
  tree_header
  +++ String.concat ""
        (map (fun i => line ["N" +++ PyStr.of_nat i; "0"; "generated"; ""]) (seq 0 30)).

(** A tree whose header has no Description column, and a catalog whose
    header has no Size column. *)
Definition tree_short : string :=
  line ["Node"; "Tier"; "Prerequisites"] +++ line ["A"; "0"; ""].
Definition catalog_no_size : string :=
  line ["Category"; "Name"; "Tech Node"] +++ line ["Engine"; "E1"; "A"].

(** A world that serves [tree] at the address of the tech tree and
    nothing else. *)
Definition tree_only (tree : string) : World :=
  {| urlopen_read := fun url =>
       if String.eqb url TECH_TREE_URL then Ok tree else Raise (URLError url);
     open_read := no_files;
     open_write_error := fun _ => None;
     DictReader := plain_DictReader;
     render_error := fun _ => None;
     source := fun dot => comment dot |}.

(** Characters that are no ASCII: the no-break space, the ideographic
    space and the full-width digit three. *)
Definition nbsp : string := PyStr.utf8 160.
Definition wide_space : string := PyStr.utf8 12288.
Definition wide_three : string := PyStr.utf8 65299.

(** A tree with such characters in a Tier cell and in a Prerequisites
    cell, and a catalog with them around the name of a node. *)
Definition tree_wide : string :=
  tree_header +++ line ["A"; nbsp +++ wide_three; "first"; ""]
  +++ line ["B"; "1"; "second"; wide_space +++ "A" +++ nbsp +++ "," +++ nbsp].
Definition catalog_wide : string :=
  catalog_header +++ line ["Engine"; "E1"; nbsp +++ "A" +++ wide_space; "Small"].

(** A literal of [n] zeros. *)
Definition zeros (n : nat) : string := string_of_list_ascii (repeat "0"%char n).

(** A world like [world] in which no file can be opened for writing: the
    file system is read-only (errno 30). *)
Definition read_only (tree catalog : string) : World :=
  {| urlopen_read := urlopen_read (world tree catalog);
     open_read := no_files;
     open_write_error := fun _ => Some (OSError 30);
     DictReader := plain_DictReader;
     render_error := fun _ => None;
     source := fun dot => comment dot |}.

(** The mapping read from [tree_ABB]. *)
Definition nodes_ABB : TechNodes :=
  [("A", {| tier := 0; description := "first"; prerequisites := []; parts := [] |});
   ("B", {| tier := 2; description := "third";
            prerequisites := ["A"; "Z"; "A"]; parts := [] |})].

(** A world in which nothing can be fetched. *)
Definition offline : World :=
  {| urlopen_read := fun url => Raise (URLError url);
     open_read := no_files;
     open_write_error := fun _ => None;
     DictReader := plain_DictReader;
     render_error := fun _ => None;
     source := fun dot => comment dot |}.

End Fixture.

(* ================================================================== *)
(** ** Vocabulary of the statements *)

(** The node a part is filed under by [assign_parts_to_nodes]: the value
    of its [tech_node] field when that is a non-empty string and a key of
    the mapping; [None] when the part stays unassigned. *)
Definition route (st : State) (tech_nodes : TechNodes) (part : PartRef) : option string :=
  match tech_node (part_at st part) with
  | Some key =>
      if PyStr.truthy key && Dict.contains tech_nodes key then Some key else None
  | None => None
  end.

Definition routed_to (st : State) (tech_nodes : TechNodes) (key : string) (part : PartRef) : bool :=
  match route st tech_nodes part with
  | Some key' => String.eqb key' key
  | None => false
  end.

Definition unrouted (st : State) (tech_nodes : TechNodes) (part : PartRef) : bool :=
  match route st tech_nodes part with
  | Some _ => false
  | None => true
  end.

(** One turn of the loop of [assign_parts_to_nodes], as a function. *)
Definition assign_step (st : State) (acc : TechNodes * list PartRef) (part : PartRef)
  : TechNodes * list PartRef :=
  match route st (fst acc) part with
  | Some key => (Dict.update (fst acc) key (parts_append part), snd acc)
  | None => (fst acc, snd acc ++ [part])
  end.

(** A node with [added] appended to its parts. *)
Definition with_more_parts (added : list PartRef) (node : TechNode) : TechNode :=
  {| tier := tier node;
     description := description node;
     prerequisites := prerequisites node;
     parts := parts node ++ added |}.

(** All part references held by the nodes of a mapping, node by node. *)
Definition all_parts (tech_nodes : TechNodes) : list PartRef :=
  flat_map (fun kv => parts (snd kv)) (Dict.items tech_nodes).

(** A mapping as [read_tech_tree] returns it: no node holds a part. *)
Definition no_parts_yet (tech_nodes : TechNodes) : Prop :=
  Forall (fun node => parts node = []) (Dict.values tech_nodes).

(** Two nodes that differ at most in that the second has parts appended. *)
Definition parts_appended (node node' : TechNode) (added : list PartRef) : Prop :=
  tier node' = tier node
  /\ description node' = description node
  /\ prerequisites node' = prerequisites node
  /\ parts node' = parts node ++ added.

(** An entry of the mapping before and after [assign_parts_to_nodes]: the
    key and the fields are the same, and parts of the input that are
    routed to this key were appended. *)
Definition entry_extended (st : State) (tn : TechNodes) (parts_in : list PartRef)
           (kv kv' : string * TechNode) : Prop :=
  fst kv' = fst kv
  /\ exists added,
       parts_appended (snd kv) (snd kv') added
       /\ forall x, In x added -> In x parts_in /\ route st tn x = Some (fst kv).



(** A string made of white space only. *)
Definition blank_run (s : string) : Prop :=
  exists bs, Forall (fun b => In b PyStr.blanks) bs /\ s = String.concat "" bs.

(** A string with a white-space character at its front, or at its end. *)
Definition begins_with_blank (t : string) : Prop :=
  exists b rest, In b PyStr.blanks /\ t = b +++ rest.

Definition ends_with_blank (t : string) : Prop :=
  exists b front, In b PyStr.blanks /\ t = front +++ b.

(** [t] is [s] trimmed: [s] is [t] with white space before and after it,
    and [t] neither begins nor ends with white space. *)
Definition trimmed (s t : string) : Prop :=
  (exists before after,
      s = before +++ t +++ after /\ blank_run before /\ blank_run after)
  /\ ~ begins_with_blank t
  /\ ~ ends_with_blank t.

(** The pieces of [s] between the separators: glued with the separator
    they give [s] back, and the separator occurs in none of them. *)
Definition pieces_of (sep : ascii) (s : string) (pieces : list string) : Prop :=
  PyStr.join (String sep EmptyString) pieces = s
  /\ pieces <> []
  /\ Forall (fun piece => ~ In sep (list_ascii_of_string piece)) pieces.

(** A row from which [read_tech_tree] can build a node. *)
Definition tree_row_ok (row : Row) : Prop :=
  exists kv, tech_node_of_row row = Ok kv.

(** A row from which [read_parts_catalog] can build a part. *)
Definition catalog_row_ok (row : Row) : Prop :=
  exists p, part_of_row row = Ok p.

(** The edges the specification asks for: one per pair of a node and one
    of its prerequisites that is a key, in the order of the mapping. *)
Definition expected_edges (tech_nodes : TechNodes) : list (string * string) :=
  flat_map
    (fun kv =>
       map (fun prereq => (prereq, fst kv))
           (filter (Dict.contains tech_nodes) (prerequisites (snd kv))))
    (Dict.items tech_nodes).

(** The text of one part in the label of its node, as the specification
    words it: the name, and the size in parentheses when there is one. *)
Definition bullet (record : Part) : string :=
  "<BR/>  • " +++ PyStr.html_escape (name record)
  +++ (if PyStr.truthy (size record)
       then " (" +++ PyStr.html_escape (size record) +++ ")"
       else "").

(** The names of a list, each once, in the order of first occurrence. *)
Fixpoint first_seen (names : list string) : list string :=
  match names with
  | [] => []
  | x :: rest => x :: filter (fun y => negb (String.eqb x y)) (first_seen rest)
  end.

(** The first of [columns] that a row does not have. *)
Fixpoint first_missing (columns : list string) (row : Row) : option string :=
  match columns with
  | [] => None
  | c :: rest =>
      match Dict.get row c with
      | None => Some c
      | Some _ => first_missing rest row
      end
  end.

(** The label of a node in one piece: the name in bold and, when the node
    has parts, the block of their bullets in small print. *)
Definition label_text (st : State) (node_name : string) (node : TechNode) : string :=
  "<" +++ "<B>" +++ PyStr.html_escape node_name +++ "</B>"
  +++ match parts node with
      | [] => ""
      | _ :: _ =>
          "<BR/><FONT POINT-SIZE=" +++ PyStr.dq +++ "9" +++ PyStr.dq +++ ">"
          +++ String.concat "" (map (fun part => bullet (part_at st part)) (parts node))
          +++ "</FONT>"
      end
  +++ ">".

(** A state with more output and the same store. *)
Definition with_output (st : State) (events : list event) : State :=
  {| next_ref := next_ref st;
     part_at := part_at st;
     output := output st ++ events |}.

(** The parts of a list that are of one category. *)
Definition of_category (st : State) (cat : string) (part : PartRef) : bool :=
  String.eqb (category (part_at st part)) cat.

(* ================================================================== *)
(** ** Dictionaries: lemmas *)

Section DictFacts.
Context {V : Type}.
Implicit Types (d : Dict.t V) (k : string) (v : V).

Lemma get_set d k v k' :
  Dict.get (Dict.set d k v) k' = if String.eqb k k' then Some v else Dict.get d k'.
Proof.
  induction d as [|[k0 v0] r IH]; simpl.
  - reflexivity.
  - destruct (String.eqb_spec k0 k) as [->|Hne]; simpl.
    + destruct (String.eqb k k'); reflexivity.
    + rewrite IH. destruct (String.eqb_spec k0 k') as [->|Hne'].
      * destruct (String.eqb_spec k k') as [->|_]; [congruence | reflexivity].
      * reflexivity.
Qed.

Lemma get_update d k f k' :
  Dict.get (Dict.update d k f) k'
  = if String.eqb k k' then option_map f (Dict.get d k') else Dict.get d k'.
Proof.
  induction d as [|[k0 v0] r IH]; simpl.
  - destruct (String.eqb k k'); reflexivity.
  - destruct (String.eqb_spec k0 k) as [->|Hne]; simpl.
    + destruct (String.eqb k k'); reflexivity.
    + rewrite IH. destruct (String.eqb_spec k0 k') as [->|Hne'].
      * destruct (String.eqb_spec k k') as [->|_]; [congruence | reflexivity].
      * reflexivity.
Qed.

Lemma keys_update d k f : Dict.keys (Dict.update d k f) = Dict.keys d.
Proof.
  induction d as [|[k0 v0] r IH]; simpl; [reflexivity|].
  destruct (String.eqb k0 k); simpl; [reflexivity | now rewrite IH].
Qed.

Lemma contains_update d k f k' :
  Dict.contains (Dict.update d k f) k' = Dict.contains d k'.
Proof.
  unfold Dict.contains. rewrite get_update.
  destruct (String.eqb k k'); [|reflexivity].
  destruct (Dict.get d k'); reflexivity.
Qed.

Lemma contains_keys d k : Dict.contains d k = true <-> In k (Dict.keys d).
Proof.
  unfold Dict.contains.
  induction d as [|[k0 v0] r IH]; simpl.
  - split; [discriminate | tauto].
  - destruct (String.eqb_spec k0 k) as [->|Hne].
    + split; auto.
    + rewrite IH. split; [auto | intros [H|H]; [congruence | exact H]].
Qed.

Lemma In_contains d k v : In (k, v) d -> Dict.contains d k = true.
Proof.
  intros H. apply contains_keys. unfold Dict.keys.
  change k with (fst (k, v)). now apply in_map.
Qed.

Lemma get_In d k v : Dict.get d k = Some v -> In (k, v) d.
Proof.
  induction d as [|[k0 v0] r IH]; simpl; [discriminate|].
  destruct (String.eqb_spec k0 k) as [->|Hne].
  - intros [= ->]. now left.
  - intros H. right. auto.
Qed.

Lemma wf_In_get d k v : Dict.wf d -> In (k, v) d -> Dict.get d k = Some v.
Proof.
  unfold Dict.wf, Dict.keys.
  induction d as [|[k0 v0] r IH]; simpl; [tauto|].
  intros Hnd [H|H].
  - injection H as -> ->. now rewrite String.eqb_refl.
  - inversion Hnd as [|? ? Hnotin Hnd']; subst.
    destruct (String.eqb_spec k0 k) as [->|Hne].
    + exfalso. apply Hnotin. change k with (fst (k, v)). now apply in_map.
    + auto.
Qed.

Lemma keys_set d k v :
  Dict.keys (Dict.set d k v)
  = if Dict.contains d k then Dict.keys d else Dict.keys d ++ [k].
Proof.
  unfold Dict.contains.
  induction d as [|[k0 v0] r IH]; simpl; [reflexivity|].
  destruct (String.eqb_spec k0 k) as [->|Hne]; simpl; [reflexivity|].
  rewrite IH. destruct (Dict.get r k); reflexivity.
Qed.

Lemma wf_set d k v : Dict.wf d -> Dict.wf (Dict.set d k v).
Proof.
  unfold Dict.wf. rewrite keys_set. intros H.
  destruct (Dict.contains d k) eqn:E; [exact H|].
  apply NoDup_app; [exact H | repeat constructor; simpl; tauto |].
  intros x Hx [<-|[]]. apply contains_keys in Hx. congruence.
Qed.
End DictFacts.

(* ================================================================== *)
(** ** Loops that only read the state *)

Lemma for_each_pure {A X} (body : A -> X -> Py A) (f : A -> X -> A) (st : State) :
  (forall acc x, body acc x st = (Ok (f acc x), st)) ->
  forall xs acc, for_each body xs acc st = (Ok (fold_left f xs acc), st).
Proof.
  intros Hbody xs. induction xs as [|x rest IH]; intros acc; simpl.
  - reflexivity.
  - unfold bind. rewrite Hbody. apply IH.
Qed.

Lemma for_each_raise {A X} (body : A -> X -> Py A) (e : exn) (st : State) :
  (forall acc x, body acc x st = (Raise e, st)) ->
  forall x rest acc, for_each body (x :: rest) acc st = (Raise e, st).
Proof.
  intros Hbody x rest acc. simpl. unfold bind. now rewrite Hbody.
Qed.

(* ================================================================== *)
(** ** [assign_parts_to_nodes] *)

Section Assign.
Variable st : State.

Lemma assign_part_step acc part :
  assign_part acc part st = (Ok (assign_step st acc part), st).
Proof.
  destruct acc as [tn ua]. unfold assign_part, assign_step, route, bind, deref, ret.
  simpl. destruct (tech_node (part_at st part)) as [key|]; [|reflexivity].
  destruct (PyStr.truthy key && Dict.contains tn key); reflexivity.
Qed.

Lemma assign_fold tn parts_in :
  assign_parts_to_nodes tn parts_in st
  = (Ok (fold_left (assign_step st) parts_in (tn, [])), st).
Proof.
  unfold assign_parts_to_nodes. apply for_each_pure. apply assign_part_step.
Qed.

Lemma route_same_keys tn tn' part :
  (forall k, Dict.contains tn' k = Dict.contains tn k) ->
  route st tn' part = route st tn part.
Proof.
  intros H. unfold route. destruct (tech_node (part_at st part)); [|reflexivity].
  now rewrite H.
Qed.

Lemma route_contains tn part key :
  route st tn part = Some key -> Dict.contains tn key = true.
Proof.
  unfold route. destruct (tech_node (part_at st part)) as [k|]; [|discriminate].
  destruct (PyStr.truthy k && Dict.contains tn k) eqn:E; [|discriminate].
  intros [= <-]. now apply andb_true_iff in E.
Qed.

Lemma with_more_parts_nil node : with_more_parts [] node = node.
Proof. destruct node. unfold with_more_parts. simpl. now rewrite app_nil_r. Qed.

Lemma with_more_parts_append added part node :
  with_more_parts added (parts_append part node) = with_more_parts (part :: added) node.
Proof.
  unfold with_more_parts, parts_append. simpl. now rewrite <- app_assoc.
Qed.

(** What the loop computes, for any state of the accumulator. *)
Lemma assign_loop_spec parts_in : forall tn ua,
  let out := fold_left (assign_step st) parts_in (tn, ua) in
  Dict.keys (fst out) = Dict.keys tn
  /\ (forall k, Dict.get (fst out) k
                = option_map (with_more_parts (filter (routed_to st tn k) parts_in))
                             (Dict.get tn k))
  /\ snd out = ua ++ filter (unrouted st tn) parts_in.
Proof.
  induction parts_in as [|part rest IH]; intros tn ua; simpl.
  - repeat split.
    + intros k. destruct (Dict.get tn k); simpl; [|reflexivity].
      now rewrite with_more_parts_nil.
    + now rewrite app_nil_r.
  - set (acc1 := assign_step st (tn, ua) part).
    assert (Hkeys1 : forall k, Dict.contains (fst acc1) k = Dict.contains tn k).
    { intros k. unfold acc1, assign_step. simpl.
      destruct (route st tn part); simpl; [apply contains_update | reflexivity]. }
    specialize (IH (fst acc1) (snd acc1)).
    rewrite <- surjective_pairing in IH. simpl in IH.
    destruct IH as (IHk & IHg & IHu).
    assert (Hroute : forall p, route st (fst acc1) p = route st tn p)
      by (intros p; now apply route_same_keys).
    assert (Hrt : forall k, filter (routed_to st (fst acc1) k) rest
                            = filter (routed_to st tn k) rest).
    { intros k. apply filter_ext. intros p. unfold routed_to. now rewrite Hroute. }
    assert (Hun : filter (unrouted st (fst acc1)) rest = filter (unrouted st tn) rest).
    { apply filter_ext. intros p. unfold unrouted. now rewrite Hroute. }
    repeat split.
    + rewrite IHk. unfold acc1, assign_step. simpl.
      destruct (route st tn part); simpl; [apply keys_update | reflexivity].
    + intros k. rewrite IHg, Hrt. unfold acc1, assign_step, routed_to at 2. simpl.
      destruct (route st tn part) as [key|] eqn:Er; simpl; [|reflexivity].
      rewrite get_update. destruct (String.eqb key k); [|reflexivity].
      destruct (Dict.get tn k); simpl; [|reflexivity].
      now rewrite with_more_parts_append.
    + rewrite IHu, Hun. unfold acc1, assign_step, unrouted at 2. simpl.
      destruct (route st tn part); simpl; [reflexivity|].
      now rewrite <- app_assoc.
Qed.

Lemma all_parts_update tn key part :
  Dict.contains tn key = true ->
  Permutation (all_parts (Dict.update tn key (parts_append part))) (part :: all_parts tn).
Proof.
  unfold all_parts, Dict.items, Dict.contains.
  induction tn as [|[k nd] r IH]; simpl; [discriminate|].
  destruct (String.eqb k key); simpl.
  - intros _. rewrite <- app_assoc. simpl.
    symmetry. apply Permutation_middle.
  - intros H. specialize (IH H).
    rewrite IH. symmetry. apply Permutation_middle.
Qed.

(** Nothing is lost and nothing is made up: the parts held afterwards
    are those held before and those of the input. *)
Lemma assign_loop_permutation parts_in : forall tn ua,
  let out := fold_left (assign_step st) parts_in (tn, ua) in
  Permutation (all_parts (fst out) ++ snd out) (all_parts tn ++ ua ++ parts_in).
Proof.
  induction parts_in as [|part rest IH]; intros tn ua; simpl.
  - now rewrite app_nil_r.
  - specialize (IH (fst (assign_step st (tn, ua) part)) (snd (assign_step st (tn, ua) part))).
    rewrite <- surjective_pairing in IH. simpl in IH. rewrite IH.
    unfold assign_step. simpl.
    destruct (route st tn part) as [key|] eqn:Er; simpl.
    + rewrite (all_parts_update tn key part (route_contains _ _ _ Er)). simpl.
      rewrite (Permutation_middle (all_parts tn) (ua ++ rest) part).
      apply Permutation_app_head.
      apply (Permutation_middle ua rest part).
    + rewrite <- app_assoc. reflexivity.
Qed.

Lemma Forall2_compose {A B C} (R : A -> B -> Prop) (S : B -> C -> Prop)
      (T : A -> C -> Prop) (l1 : list A) (l2 : list B) (l3 : list C) :
  (forall a b c, R a b -> S b c -> T a c) ->
  Forall2 R l1 l2 -> Forall2 S l2 l3 -> Forall2 T l1 l3.
Proof.
  intros HT H12. revert l3.
  induction H12 as [|a b l1 l2 Hab _ IH]; intros l3 H23; inversion H23; subst;
    constructor; eauto.
Qed.

Lemma update_entries tn key part :
  Forall2 (fun kv kv' =>
             fst kv' = fst kv
             /\ (snd kv' = snd kv
                 \/ (fst kv = key /\ snd kv' = parts_append part (snd kv))))
          tn (Dict.update tn key (parts_append part)).
Proof.
  induction tn as [|[k nd] r IH]; simpl; [constructor|].
  destruct (String.eqb_spec k key) as [->|Hne]; constructor; simpl; auto.
  clear. induction r as [|kv r IHr]; constructor; auto.
Qed.

Lemma assign_loop_frame parts_in : forall tn ua,
  Forall2 (entry_extended st tn parts_in)
          tn (fst (fold_left (assign_step st) parts_in (tn, ua))).
Proof.
  induction parts_in as [|part rest IH]; intros tn ua; simpl.
  - generalize tn at 2 3. intros l.
    induction l as [|[k nd] r IHr]; constructor; [|exact IHr].
    split; [reflexivity|]. exists []. split.
    + unfold parts_appended. rewrite app_nil_r. auto.
    + intros x [].
  - set (acc1 := assign_step st (tn, ua) part).
    assert (Hroute : forall p, route st (fst acc1) p = route st tn p).
    { intros p. apply route_same_keys. intros k. unfold acc1, assign_step. simpl.
      destruct (route st tn part); simpl; [apply contains_update | reflexivity]. }
    specialize (IH (fst acc1) (snd acc1)).
    rewrite <- surjective_pairing in IH.
    assert (Hstep : Forall2 (fun kv kv' =>
                      fst kv' = fst kv
                      /\ (snd kv' = snd kv
                          \/ (route st tn part = Some (fst kv)
                              /\ snd kv' = parts_append part (snd kv))))
                    tn (fst acc1)).
    { unfold acc1, assign_step. simpl.
      destruct (route st tn part) as [key|] eqn:Er; simpl.
      - eapply Forall2_impl; [|apply update_entries].
        intros a b (Hk & [H|(Hkey & H)]); split; auto.
        right. split; [congruence | exact H].
      - clear. induction tn as [|kv r IHr]; constructor; auto. }
    eapply Forall2_compose; [|exact Hstep|exact IH].
    intros [k nd] [k1 nd1] [k2 nd2]; unfold entry_extended; simpl.
    intros (-> & Hnd1) (-> & added & (Ht & Hd & Hp & Hparts) & Hadded).
    split; [reflexivity|]. simpl in *.
    destruct Hnd1 as [->|(Hr & ->)].
    + exists added. split; [repeat split; assumption|].
      intros x Hx. destruct (Hadded x Hx) as (Hin & Hrx).
      rewrite Hroute in Hrx. auto.
    + exists (part :: added). split.
      * unfold parts_appended. simpl in *. repeat split; try assumption.
        rewrite Hparts, <- app_assoc. reflexivity.
      * intros x [<-|Hx]; [auto|].
        destruct (Hadded x Hx) as (Hin & Hrx). rewrite Hroute in Hrx. auto.
Qed.
End Assign.

Lemma routed_to_iff st tn key part :
  routed_to st tn key part = true
  <-> tech_node (part_at st part) = Some key
      /\ key <> "" /\ Dict.contains tn key = true.
Proof.
  unfold routed_to, route.
  destruct (tech_node (part_at st part)) as [k|].
  - destruct (PyStr.truthy k && Dict.contains tn k) eqn:E.
    + apply andb_true_iff in E. destruct E as (Ht & Hc).
      rewrite String.eqb_eq. split.
      * intros ->. repeat split; [|exact Hc]. intros ->. discriminate.
      * intros ([= ->] & _). reflexivity.
    + split; [discriminate|]. intros ([= ->] & Hne & Hc).
      rewrite Hc, andb_true_r in E. destruct key; [congruence | discriminate].
  - split; [discriminate | intros (H & _); discriminate].
Qed.

Lemma unrouted_iff st tn part :
  unrouted st tn part = true
  <-> forall key, tech_node (part_at st part) = Some key ->
                  key = "" \/ Dict.contains tn key = false.
Proof.
  unfold unrouted, route.
  destruct (tech_node (part_at st part)) as [k|].
  - destruct (PyStr.truthy k && Dict.contains tn k) eqn:E.
    + apply andb_true_iff in E. destruct E as (Ht & Hc).
      split; [discriminate|]. intros H. destruct (H k eq_refl) as [->|H']; [discriminate|congruence].
    + split; [|reflexivity]. intros _ key [= <-].
      apply andb_false_iff in E. destruct E as [E|E]; [left | now right].
      destruct k; [reflexivity | discriminate].
  - split; [|reflexivity]. intros _ key. discriminate.
Qed.

Lemma entries_routed st tn0 parts_in (l l' : TechNodes) :
  Forall2 (entry_extended st tn0 parts_in) l l' ->
  Forall (fun node => parts node = []) (Dict.values l) ->
  forall k' node', In (k', node') l' ->
  forall part, In part (parts node') -> route st tn0 part = Some k'.
Proof.
  unfold Dict.values.
  induction 1 as [|[k nd] [k1 nd1] l l' Hh _ IH]; intros Hfresh.
  - intros ? ? [].
  - inversion Hfresh as [|? ? Hnd Hrest]; subst. simpl in Hnd.
    intros k' node' [Heq|Hin] part Hpart.
    + injection Heq as <- <-.
      destruct Hh as (Hk & added & (_ & _ & _ & Hparts) & Hadded). simpl in *.
      subst k1. rewrite Hparts, Hnd in Hpart. simpl in Hpart.
      now apply Hadded.
    + eapply IH; eassumption.
Qed.

(* ================================================================== *)
(** ** Claims about [assign_parts_to_nodes] *)

(** C1, as amended.  For a mapping none of whose nodes holds a part yet
    (as [read_tech_tree] returns it) and every input list:
    [assign_parts_to_nodes] returns; the parts of all nodes together with
    the unassigned list are, as multisets, the input list; and every part
    of the input is either in the unassigned list and in no node's list,
    or in the list of the node of exactly one key and not in the
    unassigned list. *)
Theorem assign_parts_partition (tech_nodes : TechNodes) (parts_in : list PartRef)
        (st : State) :
  no_parts_yet tech_nodes ->
  exists tech_nodes' unassigned,
    assign_parts_to_nodes tech_nodes parts_in st = (Ok (tech_nodes', unassigned), st)
    /\ Permutation (all_parts tech_nodes' ++ unassigned) parts_in
    /\ forall part, In part parts_in ->
         (In part unassigned
          /\ forall k node, In (k, node) (Dict.items tech_nodes') -> ~ In part (parts node))
         \/ (~ In part unassigned
             /\ exists k,
                  (exists node, Dict.get tech_nodes' k = Some node /\ In part (parts node))
                  /\ forall k' node', In (k', node') (Dict.items tech_nodes') ->
                                      In part (parts node') -> k' = k).
Proof.
  intros Hfresh.
  rewrite assign_fold.
  set (out := fold_left (assign_step st) parts_in (tech_nodes, [])).
  exists (fst out), (snd out). rewrite <- surjective_pairing.
  pose proof (assign_loop_spec st parts_in tech_nodes []) as (_ & Hget & Hua).
  pose proof (assign_loop_permutation st parts_in tech_nodes []) as Hperm.
  pose proof (assign_loop_frame st parts_in tech_nodes []) as Hframe.
  fold out in Hget, Hua, Hperm, Hframe. simpl in Hua, Hperm.
  assert (Hnone : all_parts tech_nodes = []).
  { clear -Hfresh. unfold no_parts_yet, Dict.values, all_parts, Dict.items in *.
    induction tech_nodes as [|[k nd] r IH]; simpl in *; [reflexivity|].
    inversion Hfresh; subst. rewrite IH by assumption. simpl in *.
    now rewrite app_nil_r. }
  assert (Hentries : forall k' node', In (k', node') (fst out) ->
             forall part, In part (parts node') -> route st tech_nodes part = Some k')
    by (eapply entries_routed; eassumption).
  split; [reflexivity|]. split.
  - rewrite Hperm, Hnone. reflexivity.
  - intros part Hin.
    destruct (route st tech_nodes part) as [key|] eqn:Er.
    + right. split.
      * rewrite Hua. intros H. apply filter_In in H. destruct H as (_ & H).
        unfold unrouted in H. rewrite Er in H. discriminate.
      * exists key. split.
        -- pose proof (route_contains _ _ _ _ Er) as Hc.
           unfold Dict.contains in Hc. rewrite Hget.
           destruct (Dict.get tech_nodes key) as [nd|]; [|discriminate].
           eexists. split; [reflexivity|]. simpl.
           apply in_or_app. right. apply filter_In. split; [exact Hin|].
           unfold routed_to. rewrite Er. apply String.eqb_refl.
        -- intros k' node' Hk' Hp. specialize (Hentries k' node' Hk' part Hp).
           congruence.
    + left. split.
      * rewrite Hua. apply filter_In. split; [exact Hin|].
        unfold unrouted. now rewrite Er.
      * intros k node Hk Hp. specialize (Hentries k node Hk part Hp). congruence.
Qed.

(** C2, as amended.  [assign_parts_to_nodes] returns, and: the node of
    every key has appended to its parts, in input order, exactly the
    parts of the input whose [tech_node] field is that key, where the key
    is not the empty string; the unassigned list holds, in input order,
    exactly the other parts: those whose field is [None], the empty
    string, or no key of the mapping. *)
Theorem assign_parts_routing (tech_nodes : TechNodes) (parts_in : list PartRef)
        (st : State) :
  exists tech_nodes' unassigned,
    assign_parts_to_nodes tech_nodes parts_in st = (Ok (tech_nodes', unassigned), st)
    /\ (forall key node,
          Dict.get tech_nodes key = Some node ->
          exists node',
            Dict.get tech_nodes' key = Some node'
            /\ parts node' = parts node ++ filter (routed_to st tech_nodes key) parts_in)
    /\ unassigned = filter (unrouted st tech_nodes) parts_in
    /\ (forall key part,
          routed_to st tech_nodes key part = true
          <-> tech_node (part_at st part) = Some key
              /\ key <> "" /\ Dict.contains tech_nodes key = true)
    /\ (forall part,
          unrouted st tech_nodes part = true
          <-> forall key, tech_node (part_at st part) = Some key ->
                          key = "" \/ Dict.contains tech_nodes key = false).
Proof.
  rewrite assign_fold.
  set (out := fold_left (assign_step st) parts_in (tech_nodes, [])).
  exists (fst out), (snd out). rewrite <- surjective_pairing.
  pose proof (assign_loop_spec st parts_in tech_nodes []) as (_ & Hget & Hua).
  fold out in Hget, Hua. simpl in Hua.
  split; [reflexivity|]. split; [|split; [exact Hua|]].
  - intros key node Hnode. rewrite Hget, Hnode. simpl.
    eexists. split; reflexivity.
  - split; [intros key part; apply routed_to_iff | intros part; apply unrouted_iff].
Qed.

(** C10.  [assign_parts_to_nodes] returns and leaves the keys of the
    mapping, in their order, and the tier, description and prerequisites
    of every node as they were; every node's parts list is the old one
    with parts of the input appended; the store of part records and the
    output are as before the call. *)
Theorem assign_parts_frame (tech_nodes : TechNodes) (parts_in : list PartRef)
        (st : State) :
  exists tech_nodes' unassigned st',
    assign_parts_to_nodes tech_nodes parts_in st = (Ok (tech_nodes', unassigned), st')
    /\ Dict.keys tech_nodes' = Dict.keys tech_nodes
    /\ Forall2 (fun kv kv' =>
                  fst kv' = fst kv
                  /\ tier (snd kv') = tier (snd kv)
                  /\ description (snd kv') = description (snd kv)
                  /\ prerequisites (snd kv') = prerequisites (snd kv)
                  /\ exists added, parts (snd kv') = parts (snd kv) ++ added
                                   /\ incl added parts_in)
               (Dict.items tech_nodes) (Dict.items tech_nodes')
    /\ (forall part, part_at st' part = part_at st part)
    /\ st' = st.
Proof.
  rewrite assign_fold.
  set (out := fold_left (assign_step st) parts_in (tech_nodes, [])).
  exists (fst out), (snd out), st. rewrite <- surjective_pairing.
  pose proof (assign_loop_spec st parts_in tech_nodes []) as (Hkeys & _ & _).
  pose proof (assign_loop_frame st parts_in tech_nodes []) as Hframe.
  fold out in Hkeys, Hframe.
  repeat split; try assumption.
  unfold Dict.items. eapply Forall2_impl; [|exact Hframe].
  intros kv kv' (Hk & added & (Ht & Hd & Hp & Hparts) & Hadded).
  repeat split; try assumption. exists added. split; [exact Hparts|].
  intros x Hx. now apply Hadded.
Qed.

(** Witness of C1: node A without parts, an engine for A and a part
    without node. *)
Lemma assign_parts_partition_witness :
  no_parts_yet [("A", Fixture.leaf 0)]
  /\ exists tech_nodes' unassigned,
       assign_parts_to_nodes [("A", Fixture.leaf 0)] [0; 1]
                             (Fixture.store [Fixture.engine; Fixture.fuel])
       = (Ok (tech_nodes', unassigned), Fixture.store [Fixture.engine; Fixture.fuel])
       /\ Permutation (all_parts tech_nodes' ++ unassigned) [0; 1].
Proof.
  split; [repeat constructor|].
  destruct (assign_parts_partition [("A", Fixture.leaf 0)] [0; 1]
              (Fixture.store [Fixture.engine; Fixture.fuel]))
    as (tn' & ua & Hrun & Hperm & _); [repeat constructor|].
  exists tn', ua. split; assumption.
Defined.

(** C1 as stated fails for a mapping that already holds a part: node A
    holds part 0, the input is the single part 1 (which names no node);
    afterwards the nodes and the unassigned list hold parts 0 and 1,
    which is not the input list. *)
Lemma assign_parts_prefilled_counterexample :
  exists tech_nodes' unassigned st',
    assign_parts_to_nodes
      [("A", {| tier := 0; description := ""; prerequisites := []; parts := [0] |})]
      [1] (Fixture.store [Fixture.engine; Fixture.fuel])
    = (Ok (tech_nodes', unassigned), st')
    /\ all_parts tech_nodes' ++ unassigned = [0; 1]
    /\ ~ Permutation (all_parts tech_nodes' ++ unassigned) [1].
Proof.
  do 3 eexists. split; [reflexivity|]. split; [reflexivity|].
  simpl. intros H. apply Permutation_length in H. discriminate.
Qed.

(** C2 as stated fails for the empty string: the mapping has the key
    [""], the part's field is present and equal to that key, and yet the
    part is put on the unassigned list and the node's list stays empty. *)
Lemma assign_parts_empty_key_counterexample :
  tech_node (part_at (Fixture.store [Fixture.tank]) 0) = Some ""
  /\ Dict.contains [("", Fixture.leaf 0)] "" = true
  /\ assign_parts_to_nodes [("", Fixture.leaf 0)] [0] (Fixture.store [Fixture.tank])
     = (Ok ([("", Fixture.leaf 0)], [0]), Fixture.store [Fixture.tank]).
Proof. repeat split. Qed.

(* ================================================================== *)
(** ** Strings: lemmas *)

Lemma append_assoc (a b c : string) : (a +++ b) +++ c = a +++ b +++ c.
Proof. induction a as [|x a IH]; simpl; [reflexivity | now rewrite IH]. Qed.

Lemma append_nil_r (a : string) : a +++ "" = a.
Proof. induction a as [|x a IH]; simpl; [reflexivity | now rewrite IH]. Qed.

Lemma truthy_false (s : string) : PyStr.truthy s = false <-> s = "".
Proof. destruct s; simpl; split; congruence. Qed.

Lemma truthy_true (s : string) : PyStr.truthy s = true <-> s <> "".
Proof. destruct s; simpl; split; congruence. Qed.

Lemma escape_char_truthy (c : ascii) : PyStr.truthy (PyStr.escape_char c) = true.
Proof.
  destruct c as [b0 b1 b2 b3 b4 b5 b6 b7].
  destruct b0, b1, b2, b3, b4, b5, b6, b7; reflexivity.
Qed.

Lemma html_escape_truthy (s : string) :
  PyStr.truthy (PyStr.html_escape s) = PyStr.truthy s.
Proof.
  destruct s as [|c r]; simpl; [reflexivity|].
  pose proof (escape_char_truthy c) as H.
  destruct (PyStr.escape_char c); [discriminate | reflexivity].
Qed.

(* ================================================================== *)
(** ** [create_tech_tree_graph] *)

(** The per-node path, lines 126-131: one part adds its bullet. *)
Lemma node_label_part_bullet (label : string) (part : PartRef) (st : State) :
  node_label_part label part st = (Ok (label +++ bullet (part_at st part)), st).
Proof.
  unfold node_label_part, bind, deref, ret, bullet. simpl.
  destruct (PyStr.truthy (size (part_at st part))) eqn:E.
  - rewrite html_escape_truthy, E. now rewrite !append_assoc.
  - simpl. now rewrite append_nil_r.
Qed.

Lemma node_label_total (node_name : string) (node_data : TechNode) (st : State) :
  exists label, node_label node_name node_data st = (Ok label, st).
Proof.
  unfold node_label, bind, ret.
  destruct (parts node_data) as [|p ps]; [eexists; reflexivity|].
  rewrite (for_each_pure node_label_part (fun l p => l +++ bullet (part_at st p)) st)
    by (intros; apply node_label_part_bullet).
  eexists; reflexivity.
Qed.

Lemma edges_call_node dot id a : edges (call (Node id a) dot) = edges dot.
Proof.
  unfold edges, edges_of, call. simpl. rewrite flat_map_app. simpl.
  now rewrite app_nil_r.
Qed.

Lemma edges_call_edge dot a b : edges (call (Edge a b) dot) = edges dot ++ [(a, b)].
Proof. unfold edges, edges_of, call. simpl. now rewrite flat_map_app. Qed.

Lemma edges_add_subgraph dot id inner : edges (add_subgraph id inner dot) = edges dot.
Proof. reflexivity. Qed.

(** Lines 120-136 add nodes only, read the store only, and do not raise. *)
Lemma add_tech_nodes_total (tech_nodes : TechNodes) (st : State) : forall dot,
  exists dot', add_tech_nodes tech_nodes dot st = (Ok dot', st)
               /\ edges dot' = edges dot.
Proof.
  unfold add_tech_nodes, Dict.items.
  induction tech_nodes as [|[node_name node_data] rest IH]; intros dot; simpl.
  - exists dot. split; reflexivity.
  - unfold bind at 1 2.
    destruct (node_label_total node_name node_data st) as (label & ->).
    unfold ret at 1.
    destruct (IH (call (Node node_name [("label", label); ("fillcolor", "lightblue")]) dot))
      as (dot' & Hrun & Hedges).
    exists dot'. split; [exact Hrun|]. now rewrite Hedges, edges_call_node.
Qed.

(** Lines 139-142, for the prerequisites of one node. *)
Lemma edges_of_node (known : string -> bool) (node_name : string) (prereqs : list string) :
  forall dot,
    edges (fold_left
             (fun dot prereq =>
                if known prereq then call (Edge prereq node_name) dot else dot)
             prereqs dot)
    = edges dot ++ map (fun prereq => (prereq, node_name)) (filter known prereqs).
Proof.
  induction prereqs as [|p ps IH]; intros dot; simpl.
  - now rewrite app_nil_r.
  - rewrite IH. destruct (known p); simpl; [|reflexivity].
    now rewrite edges_call_edge, <- app_assoc.
Qed.

Lemma add_prerequisite_edges_spec (tech_nodes : TechNodes) (dot : Digraph) :
  edges (add_prerequisite_edges tech_nodes dot) = edges dot ++ expected_edges tech_nodes.
Proof.
  unfold add_prerequisite_edges, expected_edges, Dict.items.
  set (known := Dict.contains tech_nodes). clearbody known. revert dot.
  induction tech_nodes as [|[node_name node_data] rest IH]; intros dot; simpl.
  - now rewrite app_nil_r.
  - rewrite IH, edges_of_node, <- app_assoc. reflexivity.
Qed.

Lemma expected_edges_In (tech_nodes : TechNodes) (p n : string) :
  In (p, n) (expected_edges tech_nodes)
  <-> exists node, In (n, node) (Dict.items tech_nodes)
                   /\ In p (prerequisites node)
                   /\ Dict.contains tech_nodes p = true.
Proof.
  unfold expected_edges, Dict.items. rewrite in_flat_map. split.
  - intros ([k nd] & Hin & Hmap). simpl in Hmap.
    apply in_map_iff in Hmap. destruct Hmap as (q & [= -> ->] & Hq).
    apply filter_In in Hq. exists nd. tauto.
  - intros (nd & Hin & Hp & Hc). exists (n, nd). split; [exact Hin|]. simpl.
    apply in_map_iff. exists p. split; [reflexivity|]. apply filter_In. tauto.
Qed.

(** One turn of the grouping loop, lines 151-155: afterwards the dict is
    not empty and no category has an empty list. *)
Lemma group_turn (by_category : Dict.t (list PartRef)) (cat : string) (part : PartRef) :
  Forall (fun kv => snd kv <> []) by_category ->
  let d := Dict.update
             (if negb (Dict.contains by_category cat)
              then Dict.set by_category cat []
              else by_category)
             cat (fun l => l ++ [part]) in
  Forall (fun kv => snd kv <> []) d /\ d <> [].
Proof.
  unfold Dict.contains.
  induction by_category as [|[k v] r IH]; intros Hall; simpl.
  - rewrite String.eqb_refl. split; [|discriminate].
    repeat constructor. simpl. discriminate.
  - inversion Hall as [|? ? Hv Hr]; subst.
    destruct (String.eqb k cat) eqn:E; simpl.
    + rewrite E. split; [|discriminate]. constructor; [|exact Hr].
      simpl. intros H. apply app_eq_nil in H. destruct H. discriminate.
    + specialize (IH Hr). simpl in IH.
      destruct (Dict.get r cat) eqn:G; simpl in *; rewrite E.
      * split; [|discriminate]. constructor; [exact Hv | apply IH].
      * split; [|discriminate]. constructor; [exact Hv | apply IH].
Qed.

Lemma group_by_category_spec (st : State) (unassigned_parts : list PartRef) :
  exists by_category,
    group_by_category unassigned_parts st = (Ok by_category, st)
    /\ Forall (fun kv => snd kv <> []) by_category
    /\ (unassigned_parts <> [] -> by_category <> []).
Proof.
  unfold group_by_category.
  assert (H : forall d, Forall (fun kv : string * list PartRef => snd kv <> []) d ->
            exists d',
              for_each
                (fun by_category part =>
                   record <- deref part ;;
                   let cat := category record in
                   let by_category :=
                     if negb (Dict.contains by_category cat)
                     then Dict.set by_category cat []
                     else by_category in
                   ret (Dict.update by_category cat (fun l => l ++ [part])))
                unassigned_parts d st = (Ok d', st)
              /\ Forall (fun kv => snd kv <> []) d'
              /\ (unassigned_parts <> [] \/ d <> [] -> d' <> [])).
  { induction unassigned_parts as [|part rest IH]; intros d Hd; simpl.
    - exists d. repeat split; [exact Hd|]. intros [H|H]; [congruence | exact H].
    - unfold bind at 1 2. unfold deref at 1. unfold ret at 1.
      destruct (group_turn d (category (part_at st part)) part Hd) as (Hall & Hne).
      destruct (IH _ Hall) as (d' & Hrun & Hall' & Hne').
      exists d'. repeat split; [exact Hrun | exact Hall' |].
      intros _. apply Hne'. right. exact Hne. }
  destruct (H [] (Forall_nil _)) as (d' & Hrun & Hall & Hne).
  exists d'. repeat split; [exact Hrun | exact Hall |]. intros Hu. apply Hne. now left.
Qed.

Lemma insert_sorted_In (k x : string) (l : list string) :
  In x (insert_sorted k l) <-> x = k \/ In x l.
Proof.
  induction l as [|y r IH]; simpl.
  - intuition congruence.
  - destruct (String.leb k y); simpl; [intuition congruence|].
    rewrite IH. intuition congruence.
Qed.

Lemma sorted_In (x : string) (l : list string) : In x (sorted l) <-> In x l.
Proof.
  induction l as [|y r IH]; simpl; [tauto|].
  rewrite insert_sorted_In, IH. intuition congruence.
Qed.

(** Line 161 raises for the first part of the first category. *)
Lemma unassigned_label_parts_raises (st : State) (by_category : Dict.t (list PartRef)) :
  Forall (fun kv => snd kv <> []) by_category ->
  by_category <> [] ->
  unassigned_label_parts by_category st = (Raise (NameError "size_str"), st).
Proof.
  intros Hall Hne. unfold unassigned_label_parts.
  destruct (sorted (Dict.keys by_category)) as [|c cs] eqn:Es.
  - exfalso. destruct by_category as [|[k v] r]; [congruence|].
    assert (Hin : In k (sorted (Dict.keys ((k, v) :: r)))) by (apply sorted_In; now left).
    rewrite Es in Hin. exact Hin.
  - assert (Hc : In c (Dict.keys by_category)).
    { apply sorted_In. rewrite Es. now left. }
    apply contains_keys in Hc. unfold Dict.contains in Hc.
    destruct (Dict.get by_category c) as [members|] eqn:G; [|discriminate].
    simpl. unfold bind at 1 2. unfold lift, subscript. rewrite G.
    pose proof (get_In _ _ _ G) as Hin.
    rewrite Forall_forall in Hall. specialize (Hall _ Hin). simpl in Hall.
    destruct members as [|m ms]; [congruence|].
    rewrite (for_each_raise unassigned_label_part (NameError "size_str") st);
      [reflexivity|].
    intros acc x. reflexivity.
Qed.

Lemma add_unassigned_cluster_raises (st : State) (part : PartRef) (rest : list PartRef)
      (dot : Digraph) :
  add_unassigned_cluster (part :: rest) dot st = (Raise (NameError "size_str"), st).
Proof.
  unfold add_unassigned_cluster, bind.
  destruct (group_by_category_spec st (part :: rest)) as (d & -> & Hall & Hne).
  rewrite unassigned_label_parts_raises; [reflexivity | exact Hall |].
  apply Hne. discriminate.
Qed.

Lemma create_tech_tree_graph_cluster (tech_nodes : TechNodes)
      (unassigned_parts : list PartRef) (st : State) :
  exists dot,
    create_tech_tree_graph tech_nodes unassigned_parts st
    = add_unassigned_cluster unassigned_parts dot st.
Proof.
  destruct (add_tech_nodes_total tech_nodes st new_digraph) as (dot1 & Hrun & _).
  exists (add_prerequisite_edges tech_nodes dot1).
  unfold create_tech_tree_graph, bind. now rewrite Hrun.
Qed.

(** C3.  Whatever the mapping and the unassigned list: the node loop and
    the edge loop of [create_tech_tree_graph] run without raising; when
    the edge loop is done the graph has exactly one edge (prerequisite,
    node) for every entry of a node's prerequisites list that is a key of
    the mapping, in the order of the mapping, and no other edge, so both
    ends of every edge are keys; the rest of the function adds no edge,
    and with no unassigned parts the function returns that graph. *)
Theorem create_tech_tree_graph_edges (tech_nodes : TechNodes)
        (unassigned_parts : list PartRef) (st : State) :
  exists with_nodes with_edges,
    add_tech_nodes tech_nodes new_digraph st = (Ok with_nodes, st)
    /\ with_edges = add_prerequisite_edges tech_nodes with_nodes
    /\ create_tech_tree_graph tech_nodes unassigned_parts st
       = add_unassigned_cluster unassigned_parts with_edges st
    /\ create_tech_tree_graph tech_nodes [] st = (Ok with_edges, st)
    /\ edges with_edges = expected_edges tech_nodes
    /\ (forall prereq node_name,
          In (prereq, node_name) (edges with_edges)
          <-> exists node, In (node_name, node) (Dict.items tech_nodes)
                           /\ In prereq (prerequisites node)
                           /\ Dict.contains tech_nodes prereq = true)
    /\ (forall prereq node_name,
          In (prereq, node_name) (edges with_edges) ->
          Dict.contains tech_nodes prereq = true
          /\ Dict.contains tech_nodes node_name = true)
    /\ (forall graph st',
          create_tech_tree_graph tech_nodes unassigned_parts st = (Ok graph, st') ->
          edges graph = edges with_edges).
Proof.
  destruct (add_tech_nodes_total tech_nodes st new_digraph) as (dot1 & Hrun & Hedges).
  exists dot1, (add_prerequisite_edges tech_nodes dot1).
  assert (Hexp : edges (add_prerequisite_edges tech_nodes dot1) = expected_edges tech_nodes).
  { rewrite add_prerequisite_edges_spec, Hedges. reflexivity. }
  assert (Hcreate : forall ua, create_tech_tree_graph tech_nodes ua st
                   = add_unassigned_cluster ua (add_prerequisite_edges tech_nodes dot1) st).
  { intros ua. unfold create_tech_tree_graph, bind. now rewrite Hrun. }
  split; [exact Hrun|]. split; [reflexivity|]. split; [apply Hcreate|].
  split; [rewrite Hcreate; reflexivity|]. split; [exact Hexp|].
  split; [intros p n; rewrite Hexp; apply expected_edges_In|]. split.
  - intros p n. rewrite Hexp, expected_edges_In. intros (nd & Hin & _ & Hc).
    split; [exact Hc|]. eapply In_contains. exact Hin.
  - intros graph st'. rewrite Hcreate.
    destruct unassigned_parts as [|part rest].
    + simpl. unfold ret. intros [= <- _]. reflexivity.
    + rewrite add_unassigned_cluster_raises. discriminate.
Qed.

(** C4, at the failing input.  On the per-node path a part without size
    adds its bullet and name and nothing after it.  On the path of the
    unassigned cluster no label is made at all: for every non-empty
    unassigned list [create_tech_tree_graph] raises the [NameError] of
    line 161. *)
Theorem size_suffix_paths :
  (forall label part st,
      size (part_at st part) = "" ->
      node_label_part label part st
      = (Ok (label +++ "<BR/>  • " +++ PyStr.html_escape (name (part_at st part))), st))
  /\ (forall tech_nodes part rest st,
         create_tech_tree_graph tech_nodes (part :: rest) st
         = (Raise (NameError "size_str"), st)).
Proof.
  split.
  - intros label part st Hsize. rewrite node_label_part_bullet. unfold bullet.
    rewrite Hsize. simpl. now rewrite append_nil_r.
  - intros tn part rest st.
    destruct (create_tech_tree_graph_cluster tn (part :: rest) st) as (dot & ->).
    apply add_unassigned_cluster_raises.
Qed.

(** C4 at a concrete input: node A and one unassigned part without size. *)
Lemma size_suffix_paths_witness :
  create_tech_tree_graph [("A", Fixture.leaf 0)] [0] (Fixture.store [Fixture.fuel])
  = (Raise (NameError "size_str"), Fixture.store [Fixture.fuel]).
Proof. apply (proj2 size_suffix_paths). Defined.

(* ================================================================== *)
(** ** [read_tech_tree] *)

(** What a row must be for the loop body to return, and what it returns. *)
Lemma tech_node_of_row_ok (row : Row) (node_name : string) (node : TechNode) :
  tech_node_of_row row = Ok (node_name, node)
  <-> subscript row "Node" = Ok node_name
      /\ exists tier_field prerequisites_field,
           subscript row "Tier" = Ok tier_field
           /\ PyStr.int tier_field = Some (tier node)
           /\ subscript row "Description" = Ok (description node)
           /\ subscript row "Prerequisites" = Ok prerequisites_field
           /\ prerequisites node = prerequisites_of prerequisites_field
           /\ parts node = [].
Proof.
  unfold tech_node_of_row, int_of, rbind.
  destruct (subscript row "Node") as [n|e].
  2:{ split; [discriminate | intros (H & _); discriminate]. }
  destruct (subscript row "Tier") as [t|e].
  2:{ split; [discriminate | intros (_ & ? & ? & H & _); discriminate]. }
  destruct (PyStr.int t) as [z|] eqn:Ez.
  2:{ split; [discriminate|]. intros (_ & t' & ? & [= <-] & H & _). congruence. }
  destruct (subscript row "Description") as [d|e].
  2:{ split; [discriminate | intros (_ & ? & ? & _ & _ & H & _); discriminate]. }
  destruct (subscript row "Prerequisites") as [p|e].
  2:{ split; [discriminate | intros (_ & ? & ? & _ & _ & _ & H & _); discriminate]. }
  split.
  - intros [= <- <-]. split; [reflexivity|]. exists t, p. simpl. repeat split; assumption.
  - intros ([= ->] & t' & p' & [= <-] & Hz & [= ->] & [= <-] & Hp & Hparts).
    destruct node as [nt nd np nparts]. simpl in *. subst. congruence.
Qed.

(** The loop body raises format errors only. *)
Lemma tech_node_of_row_error (row : Row) (e : exn) :
  tech_node_of_row row = Raise e -> format_error e.
Proof.
  unfold tech_node_of_row, int_of, rbind, subscript.
  destruct (Dict.get row "Node"); [|intros [= <-]; exact I].
  destruct (Dict.get row "Tier") as [t|]; [|intros [= <-]; exact I].
  destruct (PyStr.int t); [|intros [= <-]; exact I].
  destruct (Dict.get row "Description"); [|intros [= <-]; exact I].
  destruct (Dict.get row "Prerequisites"); [discriminate | intros [= <-]; exact I].
Qed.

(** A tier that [int] cannot read makes the body raise. *)
Lemma tech_node_of_row_bad_tier (row : Row) (tier_field : string) :
  subscript row "Tier" = Ok tier_field ->
  PyStr.int tier_field = None ->
  exists e, tech_node_of_row row = Raise e.
Proof.
  intros Ht Hi. unfold tech_node_of_row, int_of, rbind. rewrite Ht, Hi.
  destruct (subscript row "Node"); eexists; reflexivity.
Qed.

(** The mapping built from key-node pairs, in order. *)
Lemma read_tech_tree_rows_ok (rows : list Row) : forall tech_nodes result_nodes,
  read_tech_tree_rows rows tech_nodes = Ok result_nodes
  <-> exists entries,
        Forall2 (fun row kv => tech_node_of_row row = Ok kv) rows entries
        /\ result_nodes = fold_left (fun d kv => Dict.set d (fst kv) (snd kv))
                                    entries tech_nodes.
Proof.
  induction rows as [|row rest IH]; intros tn out; simpl.
  - split.
    + intros [= <-]. exists []. split; [constructor | reflexivity].
    + intros (entries & H & ->). inversion H. reflexivity.
  - unfold rbind. destruct (tech_node_of_row row) as [[k nd]|e] eqn:Er.
    + rewrite IH. split.
      * intros (entries & H & ->). exists ((k, nd) :: entries).
        split; [constructor; assumption | reflexivity].
      * intros (entries & H & ->). inversion H as [|? kv ? entries' Hkv Hrest]; subst.
        rewrite Er in Hkv. injection Hkv as <-. exists entries'. split; [exact Hrest | reflexivity].
    + split; [discriminate|]. intros (entries & H & _).
      inversion H; subst. congruence.
Qed.

(** When the loop raises, it raises what the body raised for some row. *)
Lemma read_tech_tree_rows_error (rows : list Row) : forall tech_nodes e,
  read_tech_tree_rows rows tech_nodes = Raise e ->
  exists row, In row rows /\ tech_node_of_row row = Raise e.
Proof.
  induction rows as [|row rest IH]; intros tn e; simpl; [discriminate|].
  unfold rbind. destruct (tech_node_of_row row) as [[k nd]|e'] eqn:Er.
  - intros H. destruct (IH _ _ H) as (row' & Hin & Hr). exists row'. auto.
  - intros [= <-]. exists row. auto.
Qed.

(** A row for which the body raises makes the loop raise. *)
Lemma read_tech_tree_rows_raises (rows : list Row) (row : Row) (e : exn) :
  In row rows -> tech_node_of_row row = Raise e ->
  forall tech_nodes, exists e', read_tech_tree_rows rows tech_nodes = Raise e'.
Proof.
  intros Hin Hr tn.
  destruct (read_tech_tree_rows rows tn) as [out|e'] eqn:E; [|eauto].
  exfalso. apply read_tech_tree_rows_ok in E. destruct E as (entries & H & _).
  clear -Hin Hr H. induction H as [|r kv ? ? Hkv _ IH]; [exact Hin|].
  destruct Hin as [->|Hin]; [congruence | auto].
Qed.

(** The loop stops at the first row for which the body raises. *)
Lemma read_tech_tree_rows_first_error (before after : list Row) (row : Row) (e : exn) :
  Forall tree_row_ok before ->
  tech_node_of_row row = Raise e ->
  forall tech_nodes, read_tech_tree_rows (before ++ row :: after) tech_nodes = Raise e.
Proof.
  intros Hok Hrow. induction Hok as [|r rest (kv & Hkv) _ IH]; intros tn; simpl.
  - unfold rbind. now rewrite Hrow.
  - unfold rbind. rewrite Hkv. destruct kv. apply IH.
Qed.

Lemma rows_ok_entries (rows : list Row) :
  Forall tree_row_ok rows ->
  exists entries, Forall2 (fun row kv => tech_node_of_row row = Ok kv) rows entries.
Proof.
  induction 1 as [|row rest (kv & Hkv) _ (entries & IH)].
  - exists []. constructor.
  - exists (kv :: entries). constructor; assumption.
Qed.

Lemma find_over_app {A} (f : A -> bool) (l1 l2 : list A) :
  find f (l1 ++ l2) = match find f l1 with
                      | Some x => Some x
                      | None => find f l2
                      end.
Proof.
  induction l1 as [|x r IH]; simpl; [reflexivity|].
  destruct (f x); [reflexivity | exact IH].
Qed.

(** Assignments in a row: the last one to a key is the one that stays. *)
Lemma get_after_sets {V} (entries : list (string * V)) : forall (d : Dict.t V) k,
  Dict.get (fold_left (fun d kv => Dict.set d (fst kv) (snd kv)) entries d) k
  = match find (fun kv => String.eqb (fst kv) k) (rev entries) with
    | Some kv => Some (snd kv)
    | None => Dict.get d k
    end.
Proof.
  induction entries as [|[k0 v0] rest IH]; intros d k; simpl; [reflexivity|].
  rewrite IH, find_over_app.
  destruct (find (fun kv => String.eqb (fst kv) k) (rev rest)); [reflexivity|].
  simpl. rewrite get_set. destruct (String.eqb k0 k); reflexivity.
Qed.

Lemma wf_after_sets {V} (entries : list (string * V)) : forall (d : Dict.t V),
  Dict.wf d ->
  Dict.wf (fold_left (fun d kv => Dict.set d (fst kv) (snd kv)) entries d).
Proof.
  induction entries as [|kv rest IH]; intros d Hd; simpl; [exact Hd|].
  apply IH. now apply wf_set.
Qed.

Lemma find_last_entry {V} (pre post : list (string * V)) (k : string) (v : V) :
  (forall kv, In kv post -> fst kv <> k) ->
  find (fun kv => String.eqb (fst kv) k) (rev (pre ++ (k, v) :: post)) = Some (k, v).
Proof.
  intros Hpost. rewrite rev_app_distr. simpl. rewrite <- app_assoc, find_over_app.
  assert (Hnone : find (fun kv => String.eqb (fst kv) k) (rev post) = None).
  { destruct (find (fun kv => String.eqb (fst kv) k) (rev post)) as [kv|] eqn:F;
      [|reflexivity].
    apply find_some in F. destruct F as (Hin & Heq).
    apply in_rev in Hin. apply String.eqb_eq in Heq. now apply Hpost in Hin. }
  rewrite Hnone. simpl. now rewrite String.eqb_refl.
Qed.

(* ------------------------------------------------------------------ *)
(** *** Splitting and trimming *)

(** Rows given one by one, each read by evaluation. *)
Ltac each_row_ok :=
  repeat first [apply Forall_nil | apply Forall_cons];
  eexists; vm_compute; reflexivity.

Lemma split_pieces (sep : ascii) (s : string) : pieces_of sep s (PyStr.split sep s).
Proof.
  unfold pieces_of. induction s as [|c r (Hjoin & Hne & Hall)]; simpl.
  - repeat split; [discriminate|]. repeat constructor. simpl. tauto.
  - destruct (Ascii.eqb_spec c sep) as [->|Hc].
    + repeat split; [|discriminate|].
      * destruct (PyStr.split sep r) as [|p ps]; [congruence|].
        simpl in *. now rewrite Hjoin.
      * constructor; [simpl; tauto | exact Hall].
    + destruct (PyStr.split sep r) as [|p ps]; [congruence|].
      repeat split; [|discriminate|].
      * simpl in *. destruct ps; simpl in *; now rewrite <- Hjoin.
      * inversion Hall as [|? ? Hp Hps]; subst. constructor; [|exact Hps].
        simpl. intros [H|H]; [congruence | exact (Hp H)].
Qed.

Lemma concat_empty_cons (x : string) (l : list string) :
  String.concat "" (x :: l) = x +++ String.concat "" l.
Proof.
  destruct l as [|y r]; simpl; [now rewrite append_nil_r | reflexivity].
Qed.

Lemma concat_empty_app (l l' : list string) :
  String.concat "" (l ++ l') = String.concat "" l +++ String.concat "" l'.
Proof.
  induction l as [|x r IH]; [reflexivity|].
  change ((x :: r) ++ l') with (x :: (r ++ l')).
  now rewrite !concat_empty_cons, IH, append_assoc.
Qed.

Lemma length_append (a b : string) :
  String.length (a +++ b) = String.length a + String.length b.
Proof. induction a as [|c r IH]; simpl; [reflexivity | now rewrite IH]. Qed.

Lemma rev_append (a b : string) :
  PyStr.rev (a +++ b) = PyStr.rev b +++ PyStr.rev a.
Proof.
  induction a as [|c r IH]; simpl.
  - now rewrite append_nil_r.
  - now rewrite IH, append_assoc.
Qed.

Lemma rev_involutive (s : string) : PyStr.rev (PyStr.rev s) = s.
Proof.
  induction s as [|c r IH]; simpl; [reflexivity|].
  rewrite rev_append, IH. reflexivity.
Qed.

Lemma rev_length (s : string) : String.length (PyStr.rev s) = String.length s.
Proof.
  induction s as [|c r IH]; simpl; [reflexivity|].
  rewrite length_append, IH. simpl. lia.
Qed.

Lemma rev_concat (bs : list string) :
  PyStr.rev (String.concat "" bs) = String.concat "" (map PyStr.rev (List.rev bs)).
Proof.
  induction bs as [|b r IH]; [reflexivity|].
  rewrite concat_empty_cons, rev_append, IH. simpl List.rev.
  rewrite map_app, concat_empty_app. simpl. reflexivity.
Qed.

Lemma drop_prefix_Some (p s r : string) :
  PyStr.drop_prefix p s = Some r <-> s = p +++ r.
Proof.
  revert s. induction p as [|a p IH]; intros s; simpl.
  - split; congruence.
  - destruct s as [|b s]; [split; discriminate|].
    destruct (Ascii.eqb_spec a b) as [->|Hab].
    + rewrite IH. split; congruence.
    + split; [discriminate | congruence].
Qed.

Lemma skip_one_Some (table : list string) (s r : string) :
  PyStr.skip_one table s = Some r -> exists b, In b table /\ s = b +++ r.
Proof.
  induction table as [|b rest IH]; simpl; [discriminate|].
  destruct (PyStr.drop_prefix b s) as [r'|] eqn:E.
  - intros [= <-]. apply drop_prefix_Some in E. eauto.
  - intros H. destruct (IH H) as (b' & Hin & Heq). eauto.
Qed.

Lemma skip_one_None (table : list string) (s : string) :
  PyStr.skip_one table s = None ->
  forall b r, In b table -> s <> b +++ r.
Proof.
  induction table as [|b rest IH]; simpl; [tauto|].
  destruct (PyStr.drop_prefix b s) as [r'|] eqn:E; [discriminate|].
  intros H b' r [<-|Hin] Heq.
  - apply drop_prefix_Some in Heq. congruence.
  - exact (IH H b' r Hin Heq).
Qed.

(** What the loop of [lstrip] takes off is a run of entries of the table,
    and what it leaves begins with none. *)
Lemma lskip_spec (table : list string) :
  Forall (fun b => b <> "") table ->
  forall fuel s,
    String.length s <= fuel ->
    exists bs,
      Forall (fun b => In b table) bs
      /\ s = String.concat "" bs +++ PyStr.lskip table fuel s
      /\ PyStr.skip_one table (PyStr.lskip table fuel s) = None.
Proof.
  intros Hne. induction fuel as [|fuel IH]; intros s Hlen; simpl.
  - destruct s; [|simpl in Hlen; lia].
    exists []. repeat split; [constructor|].
    clear Hlen. induction Hne as [|b rest Hb _ IHt]; [reflexivity|].
    simpl. destruct b; [congruence | exact IHt].
  - destruct (PyStr.skip_one table s) as [r|] eqn:E.
    + destruct (skip_one_Some _ _ _ E) as (b & Hin & ->).
      assert (Hb : b <> "") by (rewrite Forall_forall in Hne; auto).
      rewrite length_append in Hlen.
      destruct (IH r) as (bs & Hbs & Heq & Hnone).
      { destruct b; [congruence | simpl in Hlen; lia]. }
      exists (b :: bs). split; [constructor; assumption|]. split; [|exact Hnone].
      rewrite concat_empty_cons, append_assoc, <- Heq. reflexivity.
    + exists []. repeat split; [constructor | exact E].
Qed.

Lemma blanks_not_empty : Forall (fun b => b <> "") PyStr.blanks.
Proof. repeat constructor; discriminate. Qed.

Lemma rev_blanks_not_empty : Forall (fun b => b <> "") (map PyStr.rev PyStr.blanks).
Proof. repeat constructor; discriminate. Qed.

Lemma In_rev_blanks (b : string) :
  In b (map PyStr.rev PyStr.blanks) -> In (PyStr.rev b) PyStr.blanks.
Proof.
  rewrite in_map_iff. intros (b' & <- & Hin). now rewrite rev_involutive.
Qed.

Lemma lstrip_spec (s : string) :
  exists before,
    s = before +++ PyStr.lstrip s
    /\ blank_run before
    /\ ~ begins_with_blank (PyStr.lstrip s).
Proof.
  destruct (lskip_spec PyStr.blanks blanks_not_empty (String.length s) s (le_n _))
    as (bs & Hbs & Heq & Hnone).
  exists (String.concat "" bs). split; [exact Heq|]. split; [now exists bs|].
  intros (b & rest & Hin & Hb).
  exact (skip_one_None _ _ Hnone b rest Hin Hb).
Qed.

Lemma rstrip_spec (s : string) :
  exists after,
    s = PyStr.rstrip s +++ after
    /\ blank_run after
    /\ ~ ends_with_blank (PyStr.rstrip s).
Proof.
  unfold PyStr.rstrip.
  destruct (lskip_spec (map PyStr.rev PyStr.blanks) rev_blanks_not_empty
                       (String.length s) (PyStr.rev s))
    as (bs & Hbs & Heq & Hnone).
  { rewrite rev_length. apply le_n. }
  set (kept := PyStr.lskip (map PyStr.rev PyStr.blanks) (String.length s) (PyStr.rev s)) in *.
  exists (String.concat "" (map PyStr.rev (List.rev bs))). split; [|split].
  - rewrite <- rev_concat, <- rev_append, <- Heq, rev_involutive. reflexivity.
  - exists (map PyStr.rev (List.rev bs)). split; [|reflexivity].
    rewrite Forall_forall in *. intros b Hb.
    apply in_map_iff in Hb. destruct Hb as (b' & <- & Hb').
    apply In_rev_blanks, Hbs. now apply in_rev.
  - intros (b & front & Hin & Hb).
    apply (skip_one_None _ _ Hnone (PyStr.rev b) (PyStr.rev front)).
    + apply in_map. exact Hin.
    + rewrite <- rev_append, <- Hb, rev_involutive. reflexivity.
Qed.

Lemma strip_trimmed (s : string) : trimmed s (PyStr.strip s).
Proof.
  unfold trimmed, PyStr.strip.
  destruct (lstrip_spec s) as (before & Heq & Hb & Hs).
  destruct (rstrip_spec (PyStr.lstrip s)) as (after & Heq' & Ha & He).
  split; [|split; [|exact He]].
  - exists before, after. split; [|split; assumption].
    rewrite <- Heq'. exact Heq.
  - intros (b & rest & Hin & Hb'). apply Hs.
    exists b, (rest +++ after). split; [exact Hin|].
    rewrite Heq', Hb', append_assoc. reflexivity.
Qed.




Lemma map_filter_swap {A B} (f : A -> B) (keep : B -> bool) (l : list A) :
  map f (filter (fun x => keep (f x)) l) = filter keep (map f l).
Proof.
  induction l as [|x r IH]; simpl; [reflexivity|].
  destruct (keep (f x)); simpl; now rewrite IH.
Qed.

Lemma Forall2_In_right {A B} (R : A -> B -> Prop) (l : list A) (l' : list B) (y : B) :
  Forall2 R l l' -> In y l' -> exists x, In x l /\ R x y.
Proof.
  induction 1 as [|a b l l' Hab _ IH]; simpl; [tauto|].
  intros [<-|Hin]; [eauto|]. destruct (IH Hin) as (x & Hx & HR). eauto.
Qed.

(** What [read_tech_tree] returns is made of the rows of its reader. *)
Lemma read_tech_tree_ok (W : World) (data_source : string) (tech_nodes : TechNodes) :
  read_tech_tree W data_source = Ok tech_nodes ->
  exists rows entries,
    reader_of W data_source = Ok rows
    /\ Forall2 (fun row kv => tech_node_of_row row = Ok kv) rows entries
    /\ tech_nodes = fold_left (fun d kv => Dict.set d (fst kv) (snd kv)) entries [].
Proof.
  unfold read_tech_tree, rbind.
  destruct (reader_of W data_source) as [rows|e]; [|discriminate].
  intros H. apply read_tech_tree_rows_ok in H. destruct H as (entries & H1 & H2).
  exists rows, entries. auto.
Qed.

(** Every node of the result was built from a row that names it. *)
Lemma read_tech_tree_entry (W : World) (data_source : string) (tech_nodes : TechNodes)
      (node_name : string) (node : TechNode) :
  read_tech_tree W data_source = Ok tech_nodes ->
  Dict.get tech_nodes node_name = Some node ->
  exists rows row,
    reader_of W data_source = Ok rows
    /\ In row rows
    /\ tech_node_of_row row = Ok (node_name, node).
Proof.
  intros Hread Hget.
  destruct (read_tech_tree_ok _ _ _ Hread) as (rows & entries & Hreader & Hall & ->).
  rewrite get_after_sets in Hget. simpl in Hget.
  destruct (find (fun kv => String.eqb (fst kv) node_name) (rev entries))
    as [[k nd]|] eqn:F; [|discriminate].
  injection Hget as ->. apply find_some in F. destruct F as (Hin & Hk).
  apply in_rev in Hin. apply String.eqb_eq in Hk. simpl in Hk. subst k.
  destruct (Forall2_In_right _ _ _ _ Hall Hin) as (row & Hrow & Hbuilt).
  exists rows, row. auto.
Qed.

(** When every row can be read, the mapping is returned, and the node it
    holds for a name is the one built from the last row of that name. *)
Lemma read_tech_tree_last_row (W : World) (data_source : string)
      (before after : list Row) (row : Row) (node_name : string) :
  reader_of W data_source = Ok (before ++ row :: after) ->
  Forall tree_row_ok (before ++ row :: after) ->
  subscript row "Node" = Ok node_name ->
  (forall later, In later after -> subscript later "Node" <> Ok node_name) ->
  exists tech_nodes node,
    read_tech_tree W data_source = Ok tech_nodes
    /\ Dict.get tech_nodes node_name = Some node
    /\ tech_node_of_row row = Ok (node_name, node).
Proof.
  intros Hreader Hok Hname Hafter.
  destruct (rows_ok_entries _ Hok) as (entries & Hall).
  pose proof Hall as Hsplit.
  apply Forall2_app_inv_l in Hsplit.
  destruct Hsplit as (e_before & e_rest & Hb & Hrest & ->).
  inversion Hrest as [|? [k node] ? e_after Hkv Hafter']; subst.
  pose proof Hkv as Hfields. apply tech_node_of_row_ok in Hfields.
  destruct Hfields as (Hk & _). rewrite Hname in Hk. injection Hk as <-.
  exists (fold_left (fun d kv => Dict.set d (fst kv) (snd kv))
                    (e_before ++ (node_name, node) :: e_after) ([] : TechNodes)), node.
  split; [|split; [|exact Hkv]].
  - unfold read_tech_tree, rbind. rewrite Hreader.
    apply read_tech_tree_rows_ok. exists (e_before ++ (node_name, node) :: e_after).
    split; [exact Hall | reflexivity].
  - rewrite get_after_sets, find_last_entry; [reflexivity|].
    intros kv Hin Hkey.
    destruct (Forall2_In_right _ _ _ _ Hafter' Hin) as (later & Hlater & Hbuilt).
    destruct kv as [k nd]. apply tech_node_of_row_ok in Hbuilt.
    destruct Hbuilt as (Hnode & _). simpl in Hkey. subst k.
    exact (Hafter later Hlater Hnode).
Qed.

(** C5.  [read_tech_tree] reads the Tier cell with [int].  A row can be
    read exactly when it has the four cells and [int] reads its Tier cell.
    When every row can be read, [read_tech_tree] returns, and the node it
    holds for a name has the integer that the Tier cell of the last row of
    that name denotes; the tier of every node of every mapping it returns
    is the integer of the Tier cell of a row of that name.  When some row
    has a Tier cell that [int] cannot read, [read_tech_tree] raises a
    format error, which is the [ValueError] of that cell when the rows
    before it can be read; and then [main], which reads the tech tree
    first, ends with the error having printed one line and written no
    file. *)
Theorem tier_is_parsed (W : World) :
  (forall row,
      tree_row_ok row
      <-> exists node_name tier_field tier_value description_field prerequisites_field,
            Dict.get row "Node" = Some node_name
            /\ Dict.get row "Tier" = Some tier_field
            /\ PyStr.int tier_field = Some tier_value
            /\ Dict.get row "Description" = Some description_field
            /\ Dict.get row "Prerequisites" = Some prerequisites_field)
  /\ (forall data_source before row after node_name,
         reader_of W data_source = Ok (before ++ row :: after) ->
         Forall tree_row_ok (before ++ row :: after) ->
         subscript row "Node" = Ok node_name ->
         (forall later, In later after -> subscript later "Node" <> Ok node_name) ->
         exists tech_nodes node tier_field,
           read_tech_tree W data_source = Ok tech_nodes
           /\ Dict.get tech_nodes node_name = Some node
           /\ subscript row "Tier" = Ok tier_field
           /\ PyStr.int tier_field = Some (tier node))
  /\ (forall data_source tech_nodes node_name node,
         read_tech_tree W data_source = Ok tech_nodes ->
         Dict.get tech_nodes node_name = Some node ->
         exists rows row tier_field,
           reader_of W data_source = Ok rows
           /\ In row rows
           /\ subscript row "Node" = Ok node_name
           /\ subscript row "Tier" = Ok tier_field
           /\ PyStr.int tier_field = Some (tier node))
  /\ (forall data_source rows row tier_field,
         reader_of W data_source = Ok rows ->
         In row rows ->
         subscript row "Tier" = Ok tier_field ->
         PyStr.int tier_field = None ->
         exists e, read_tech_tree W data_source = Raise e /\ format_error e)
  /\ (forall data_source before row after node_name tier_field,
         reader_of W data_source = Ok (before ++ row :: after) ->
         Forall tree_row_ok before ->
         subscript row "Node" = Ok node_name ->
         subscript row "Tier" = Ok tier_field ->
         PyStr.int tier_field = None ->
         read_tech_tree W data_source = Raise (ValueError tier_field))
  /\ (forall st rows row tier_field,
         reader_of W TECH_TREE_URL = Ok rows ->
         In row rows ->
         subscript row "Tier" = Ok tier_field ->
         PyStr.int tier_field = None ->
         exists e st',
           main W st = (Raise e, st')
           /\ format_error e
           /\ output st' = output st ++ [Print "Fetching tech tree from Google Sheets..."]
           /\ filter writes_file (output st') = filter writes_file (output st)).
Proof.
  assert (Hraise : forall data_source rows row tier_field,
             reader_of W data_source = Ok rows ->
             In row rows ->
             subscript row "Tier" = Ok tier_field ->
             PyStr.int tier_field = None ->
             exists e, read_tech_tree W data_source = Raise e /\ format_error e).
  { intros ds rows row t Hreader Hin Ht Hi.
    destruct (tech_node_of_row_bad_tier row t Ht Hi) as (e0 & He0).
    unfold read_tech_tree, rbind. rewrite Hreader.
    destruct (read_tech_tree_rows_raises rows row e0 Hin He0 []) as (e & He).
    exists e. split; [exact He|].
    destruct (read_tech_tree_rows_error _ _ _ He) as (row' & _ & Hrow').
    eapply tech_node_of_row_error. exact Hrow'. }
  split; [|split; [|split; [|split; [exact Hraise|split]]]].
  - intros row. unfold tree_row_ok, tech_node_of_row, int_of, rbind, subscript. split.
    + intros (kv & H).
      destruct (Dict.get row "Node") as [n|]; [|discriminate].
      destruct (Dict.get row "Tier") as [t|]; [|discriminate].
      destruct (PyStr.int t) as [z|] eqn:Ez; [|discriminate].
      destruct (Dict.get row "Description") as [d|]; [|discriminate].
      destruct (Dict.get row "Prerequisites") as [p|]; [|discriminate].
      exists n, t, z, d, p. rewrite Ez. repeat split.
    + intros (n & t & z & d & p & -> & -> & Hi & -> & ->). rewrite Hi.
      eexists. reflexivity.
  - intros ds before row after k Hreader Hok Hname Hafter.
    destruct (read_tech_tree_last_row _ _ _ _ _ _ Hreader Hok Hname Hafter)
      as (tn & nd & Hread & Hget & Hrow).
    apply tech_node_of_row_ok in Hrow.
    destruct Hrow as (_ & t & p & Ht & Hi & _).
    exists tn, nd, t. auto.
  - intros ds tn k nd Hread Hget.
    destruct (read_tech_tree_entry _ _ _ _ _ Hread Hget) as (rows & row & Hreader & Hin & Hrow).
    apply tech_node_of_row_ok in Hrow.
    destruct Hrow as (Hnode & t & p & Ht & Hi & _).
    exists rows, row, t. auto.
  - intros ds before row after k t Hreader Hok Hnode Ht Hi.
    unfold read_tech_tree, rbind. rewrite Hreader.
    apply read_tech_tree_rows_first_error; [exact Hok|].
    unfold tech_node_of_row, int_of, rbind. now rewrite Hnode, Ht, Hi.
  - intros st rows row t Hreader Hin Ht Hi.
    destruct (Hraise _ _ _ _ Hreader Hin Ht Hi) as (e & Hread & Hfmt).
    exists e. eexists.
    cbv beta iota delta [main bind print emit lift]. rewrite Hread.
    split; [reflexivity|]. split; [exact Hfmt|]. simpl.
    split; [reflexivity|]. rewrite filter_app. simpl. apply app_nil_r.
Qed.

(** C8.  The prerequisites of a node built from a row are the pieces of
    the row's Prerequisites cell between its commas, each trimmed, without
    those that are empty after trimming, in the order of the cell.  When
    every row can be read, [read_tech_tree] returns, and the node it holds
    for a name has the prerequisites so made from the cell of the last row
    of that name; the prerequisites of every node of every mapping it
    returns are so made from the cell of a row of that name. *)
Theorem prerequisites_are_split (W : World) :
  (forall row node_name node,
      tech_node_of_row row = Ok (node_name, node) ->
      exists field pieces,
        subscript row "Prerequisites" = Ok field
        /\ pieces_of "," field pieces
        /\ Forall2 trimmed pieces (map PyStr.strip pieces)
        /\ prerequisites node
           = filter (fun t => negb (String.eqb t "")) (map PyStr.strip pieces))
  /\ (forall data_source before row after node_name,
         reader_of W data_source = Ok (before ++ row :: after) ->
         Forall tree_row_ok (before ++ row :: after) ->
         subscript row "Node" = Ok node_name ->
         (forall later, In later after -> subscript later "Node" <> Ok node_name) ->
         exists tech_nodes node field pieces,
           read_tech_tree W data_source = Ok tech_nodes
           /\ Dict.get tech_nodes node_name = Some node
           /\ subscript row "Prerequisites" = Ok field
           /\ pieces_of "," field pieces
           /\ Forall2 trimmed pieces (map PyStr.strip pieces)
           /\ prerequisites node
              = filter (fun t => negb (String.eqb t "")) (map PyStr.strip pieces))
  /\ (forall data_source tech_nodes node_name node,
         read_tech_tree W data_source = Ok tech_nodes ->
         Dict.get tech_nodes node_name = Some node ->
         exists rows row field,
           reader_of W data_source = Ok rows
           /\ In row rows
           /\ subscript row "Node" = Ok node_name
           /\ subscript row "Prerequisites" = Ok field
           /\ prerequisites node
              = filter (fun t => negb (String.eqb t ""))
                       (map PyStr.strip (PyStr.split "," field))).
Proof.
  assert (Hpre : forall field,
             prerequisites_of field
             = filter (fun t => negb (String.eqb t ""))
                      (map PyStr.strip (PyStr.split "," field))).
  { intros field. unfold prerequisites_of. rewrite map_filter_swap.
    apply filter_ext. intros t. destruct t; reflexivity. }
  assert (Hrow : forall row node_name node,
             tech_node_of_row row = Ok (node_name, node) ->
             exists field pieces,
               subscript row "Prerequisites" = Ok field
               /\ pieces_of "," field pieces
               /\ Forall2 trimmed pieces (map PyStr.strip pieces)
               /\ prerequisites node
                  = filter (fun t => negb (String.eqb t "")) (map PyStr.strip pieces)).
  { intros row k nd Hrow. apply tech_node_of_row_ok in Hrow.
    destruct Hrow as (_ & t & field & _ & _ & _ & Hfield & Hp & _).
    exists field, (PyStr.split "," field).
    split; [exact Hfield|]. split; [apply split_pieces|]. split.
    + induction (PyStr.split "," field) as [|p ps IH]; simpl; constructor;
        [apply strip_trimmed | exact IH].
    + rewrite Hp. apply Hpre. }
  split; [exact Hrow|]. split.
  - intros ds before row after k Hreader Hok Hname Hafter.
    destruct (read_tech_tree_last_row _ _ _ _ _ _ Hreader Hok Hname Hafter)
      as (tn & nd & Hread & Hget & Hbuilt).
    destruct (Hrow _ _ _ Hbuilt) as (field & pieces & Hfield & Hpieces & Htrim & Hp).
    exists tn, nd, field, pieces. auto 6.
  - intros ds tn k nd Hread Hget.
    destruct (read_tech_tree_entry _ _ _ _ _ Hread Hget) as (rows & row & Hreader & Hin & Hbuilt).
    apply tech_node_of_row_ok in Hbuilt.
    destruct Hbuilt as (Hnode & t & field & _ & _ & _ & Hfield & Hp & _).
    exists rows, row, field. rewrite Hp, Hpre. auto.
Qed.

(** C9.  When the table has a row named [node_name], a later row with
    the same name, and no row of that name after the later one, and when
    every row by itself can be read, [read_tech_tree] returns a mapping
    whose entry for the name has tier, description and prerequisites of
    the later row; the name is a key once. *)
Theorem duplicate_node_last_wins (W : World) (data_source : string)
        (rows before between after : list Row) (first last : Row)
        (node_name : string) :
  reader_of W data_source = Ok rows ->
  rows = before ++ first :: between ++ last :: after ->
  subscript first "Node" = Ok node_name ->
  subscript last "Node" = Ok node_name ->
  (forall row, In row after -> subscript row "Node" <> Ok node_name) ->
  Forall tree_row_ok rows ->
  exists tech_nodes node tier_field prerequisites_field,
    read_tech_tree W data_source = Ok tech_nodes
    /\ Dict.get tech_nodes node_name = Some node
    /\ subscript last "Tier" = Ok tier_field
    /\ PyStr.int tier_field = Some (tier node)
    /\ subscript last "Description" = Ok (description node)
    /\ subscript last "Prerequisites" = Ok prerequisites_field
    /\ prerequisites node = prerequisites_of prerequisites_field
    /\ parts node = []
    /\ Dict.wf tech_nodes
    /\ count_occ string_dec (Dict.keys tech_nodes) node_name = 1.
Proof.
  intros Hreader -> Hfirst Hlast Hafter Hok.
  destruct (rows_ok_entries _ Hok) as (entries & Hall).
  pose proof Hall as Hsplit.
  apply Forall2_app_inv_l in Hsplit.
  destruct Hsplit as (e_before & e_rest & Hb & Hrest & ->).
  inversion Hrest as [|? kv_first ? e_rest' Hkv_first Hrest' ]; subst.
  apply Forall2_app_inv_l in Hrest'.
  destruct Hrest' as (e_between & e_last & Hbt & Hl & ->).
  inversion Hl as [|? [k node] ? e_after Hkv_last Hafter']; subst.
  pose proof Hkv_last as Hfields. apply tech_node_of_row_ok in Hfields.
  destruct Hfields as (Hk & t & p & Ht & Hi & Hd & Hp & Hpre & Hparts).
  rewrite Hlast in Hk. injection Hk as <-.
  set (tn := fold_left (fun d kv => Dict.set d (fst kv) (snd kv))
                       (e_before ++ kv_first :: e_between ++ (node_name, node) :: e_after)
                       ([] : TechNodes)).
  assert (Hwf : Dict.wf tn) by (apply wf_after_sets; constructor).
  assert (Hget : Dict.get tn node_name = Some node).
  { unfold tn. rewrite get_after_sets.
    replace (e_before ++ kv_first :: e_between ++ (node_name, node) :: e_after)
      with ((e_before ++ kv_first :: e_between) ++ (node_name, node) :: e_after)
      by (rewrite <- app_assoc; reflexivity).
    rewrite find_last_entry; [reflexivity|].
    intros kv Hin Hname.
    destruct (Forall2_In_right _ _ _ _ Hafter' Hin) as (row & Hrow & Hbuilt).
    destruct kv as [k nd]. apply tech_node_of_row_ok in Hbuilt.
    destruct Hbuilt as (Hnode & _). simpl in Hname. subst k.
    exact (Hafter row Hrow Hnode). }
  exists tn, node, t, p.
  split.
  { unfold read_tech_tree, rbind. rewrite Hreader.
    apply read_tech_tree_rows_ok. exists (e_before ++ kv_first :: e_between ++ (node_name, node) :: e_after).
    split; [exact Hall | reflexivity]. }
  do 8 (split; [assumption|]).
  assert (Hin : In node_name (Dict.keys tn)).
  { apply contains_keys. unfold Dict.contains. now rewrite Hget. }
  apply (proj1 (count_occ_In string_dec _ _)) in Hin.
  pose proof (proj1 (NoDup_count_occ string_dec (Dict.keys tn)) Hwf node_name).
  lia.
Qed.

(* ================================================================== *)
(** ** Where the rows come from *)

(** C6, with the case in which the code leaves the chain.  A source
    that begins with [http://] or [https://] is fetched and the fetched
    text is read; any other source is opened as a file and the file's
    text is read; when there is no such file the source itself is read as
    text.  When [open] fails in any other way (the name is too long for a
    file name, or names a directory), both functions raise that error and
    the source is never read as text. *)
Theorem data_source_resolution (W : World) (data_source : string) :
  let remote := PyStr.startswith data_source "http://"
                || PyStr.startswith data_source "https://" in
  let reads (text : string) :=
    read_tech_tree W data_source = read_tech_tree_rows (DictReader W text) []
    /\ forall st, read_parts_catalog W data_source st
                  = read_parts_catalog_rows (DictReader W text) [] st in
  let raises (e : exn) :=
    read_tech_tree W data_source = Raise e
    /\ forall st, read_parts_catalog W data_source st = (Raise e, st) in
  (remote = true -> forall text, urlopen_read W data_source = Ok text -> reads text)
  /\ (remote = true -> forall e, urlopen_read W data_source = Raise e -> raises e)
  /\ (remote = false -> forall text, open_read W data_source = Ok text -> reads text)
  /\ (remote = false -> open_read W data_source = Raise FileNotFoundError ->
      reads data_source)
  /\ (remote = false -> forall e, open_read W data_source = Raise e ->
      e <> FileNotFoundError -> raises e).
Proof.
  cbv zeta.
  unfold read_tech_tree, read_parts_catalog, reader_of, fetch_tsv_from_url,
    rbind, bind, lift.
  split; [|split; [|split; [|split]]]; intros Hremote; rewrite Hremote.
  - intros text Hx. rewrite Hx. split; reflexivity.
  - intros e Hx. rewrite Hx. split; reflexivity.
  - intros text Hx. rewrite Hx. split; reflexivity.
  - intros Hx. rewrite Hx. split; reflexivity.
  - intros e Hx Hne. rewrite Hx. destruct e; try congruence; split; reflexivity.
Qed.

(** C6 at the failing input: the tree of thirty nodes given as inline
    text, where there are no files. *)
Lemma data_source_resolution_witness :
  PyStr.startswith Fixture.tree_thirty "http://"
  || PyStr.startswith Fixture.tree_thirty "https://" = false
  /\ open_read (Fixture.world "" "") Fixture.tree_thirty = Raise (OSError 36)
  /\ read_tech_tree (Fixture.world "" "") Fixture.tree_thirty = Raise (OSError 36)
  /\ exists tech_nodes,
       read_tech_tree_rows (Fixture.plain_DictReader Fixture.tree_thirty) [] = Ok tech_nodes
       /\ List.length tech_nodes = 30.
Proof.
  split; [reflexivity|]. split; [vm_compute; reflexivity|]. split.
  - apply (proj2 (proj2 (proj2 (proj2
             (data_source_resolution (Fixture.world "" "") Fixture.tree_thirty))))).
    + reflexivity.
    + vm_compute. reflexivity.
    + discriminate.
  - eexists. split; vm_compute; reflexivity.
Defined.

(* ================================================================== *)
(** ** [read_parts_catalog] *)

Lemma part_of_row_ok (row : Row) (record : Part) :
  part_of_row row = Ok record
  <-> exists field,
        subscript row "Category" = Ok (category record)
        /\ subscript row "Name" = Ok (name record)
        /\ subscript row "Tech Node" = Ok field
        /\ tech_node record
           = (if PyStr.truthy field then Some (PyStr.strip field) else None)
        /\ subscript row "Size" = Ok (size record).
Proof.
  unfold part_of_row, rbind.
  destruct (subscript row "Category") as [c|e].
  2:{ split; [discriminate | intros (? & H & _); discriminate]. }
  destruct (subscript row "Name") as [n|e].
  2:{ split; [discriminate | intros (? & _ & H & _); discriminate]. }
  destruct (subscript row "Tech Node") as [t|e].
  2:{ split; [discriminate | intros (? & _ & _ & H & _); discriminate]. }
  destruct (subscript row "Size") as [z|e].
  2:{ split; [discriminate | intros (? & _ & _ & _ & _ & H); discriminate]. }
  split.
  - intros [= <-]. exists t. simpl. repeat split.
  - intros (f & [= ->] & [= ->] & [= <-] & Ht & [= ->]).
    destruct record as [rc rn rt rs]. simpl in *. now subst.
Qed.

(** The loop of [read_parts_catalog] when every row can be read: the
    records are allocated one after the other, nothing else changes. *)
Lemma read_parts_catalog_rows_ok (rows : list Row) (records : list Part) :
  Forall2 (fun row record => part_of_row row = Ok record) rows records ->
  forall parts st,
  exists st',
    read_parts_catalog_rows rows parts st
    = (Ok (parts ++ seq (next_ref st) (List.length rows)), st')
    /\ output st' = output st
    /\ (forall i record, nth_error records i = Some record ->
                         part_at st' (next_ref st + i) = record)
    /\ (forall r, r < next_ref st -> part_at st' r = part_at st r).
Proof.
  unfold read_parts_catalog_rows.
  induction 1 as [|row record rows records Hrow _ IH]; intros parts st; simpl.
  - exists st. rewrite app_nil_r. repeat split. intros [|i] record; discriminate.
  - unfold bind at 1 2 3. unfold lift at 1. rewrite Hrow.
    unfold alloc at 1. unfold ret at 1.
    match goal with
    | |- context [for_each _ rows ?p ?s] => destruct (IH p s) as (st' & Hrun & Hout & Hnew & Hold)
    end.
    simpl in *. exists st'. rewrite Hrun, <- app_assoc. simpl.
    repeat split.
    + exact Hout.
    + intros [|i] rec Hrec; simpl in Hrec.
      * injection Hrec as <-. rewrite Nat.add_0_r, Hold by lia.
        now rewrite Nat.eqb_refl.
      * rewrite <- Nat.add_succ_comm. now apply Hnew.
    + intros r Hr. rewrite Hold by lia.
      destruct (Nat.eqb_spec r (next_ref st)); [lia | reflexivity].
Qed.

Lemma catalog_rows_records (rows : list Row) :
  Forall catalog_row_ok rows ->
  exists records, Forall2 (fun row record => part_of_row row = Ok record) rows records.
Proof.
  induction 1 as [|row rest (p & Hp) _ (records & IH)].
  - exists []. constructor.
  - exists (p :: records). constructor; assumption.
Qed.

Lemma Forall2_nth_error {A B} (R : A -> B -> Prop) (l : list A) (l' : list B) :
  Forall2 R l l' ->
  forall i x, nth_error l i = Some x -> exists y, nth_error l' i = Some y /\ R x y.
Proof.
  induction 1 as [|a b l l' Hab _ IH]; intros [|i] x; simpl; try discriminate.
  - intros [= <-]. eauto.
  - apply IH.
Qed.

(** C7, as amended.  When every row of the catalog can be read,
    [read_parts_catalog] returns one part per row, in order.  An empty
    node cell is stored as [None]; any other cell is stored trimmed, so a
    cell of blanks only is stored as the empty string; and a part whose
    cell is empty or blank is put on the unassigned list by
    [assign_parts_to_nodes], whatever the mapping. *)
Theorem tech_node_field_normalized (W : World) (data_source : string)
        (rows : list Row) (st : State) :
  reader_of W data_source = Ok rows ->
  Forall catalog_row_ok rows ->
  exists parts_read st',
    read_parts_catalog W data_source st = (Ok parts_read, st')
    /\ List.length parts_read = List.length rows
    /\ forall i row part,
         nth_error rows i = Some row ->
         nth_error parts_read i = Some part ->
         exists field,
           subscript row "Tech Node" = Ok field
           /\ (field = "" -> tech_node (part_at st' part) = None)
           /\ (field <> "" ->
               tech_node (part_at st' part) = Some (PyStr.strip field)
               /\ trimmed field (PyStr.strip field))
           /\ (PyStr.strip field = "" ->
               forall tech_nodes,
               exists tech_nodes' unassigned,
                 assign_parts_to_nodes tech_nodes parts_read st'
                 = (Ok (tech_nodes', unassigned), st')
                 /\ In part unassigned).
Proof.
  intros Hreader Hok.
  destruct (catalog_rows_records rows Hok) as (records & Hall).
  destruct (read_parts_catalog_rows_ok rows records Hall [] st)
    as (st' & Hrun & _ & Hnew & _).
  exists (seq (next_ref st) (List.length rows)), st'.
  split.
  { unfold read_parts_catalog, bind, lift. rewrite Hreader. exact Hrun. }
  split; [apply length_seq|].
  intros i row part Hrow Hpart.
  destruct (Forall2_nth_error _ _ _ Hall i row Hrow) as (record & Hrec & Hbuilt).
  assert (Hi : i < List.length rows) by (apply nth_error_Some; congruence).
  rewrite nth_error_seq in Hpart.
  destruct (Nat.ltb_spec i (List.length rows)); [|lia]. injection Hpart as <-.
  rewrite (Hnew i record Hrec).
  apply part_of_row_ok in Hbuilt.
  destruct Hbuilt as (field & _ & _ & Hfield & Htn & _).
  exists field. split; [exact Hfield|]. split; [|split].
  - intros ->. exact Htn.
  - intros Hne. apply truthy_true in Hne. rewrite Hne in Htn.
    split; [exact Htn | apply strip_trimmed].
  - intros Hblank tn. rewrite assign_fold.
    pose proof (assign_loop_spec st' (seq (next_ref st) (List.length rows)) tn [])
      as (_ & _ & Hua).
    eexists _, _. split; [rewrite <- surjective_pairing; reflexivity|].
    rewrite Hua. simpl. apply filter_In. split.
    + apply in_seq. lia.
    + unfold unrouted, route. rewrite (Hnew i record Hrec), Htn.
      destruct (PyStr.truthy field); [rewrite Hblank|]; reflexivity.
Qed.

(* ================================================================== *)
(** ** The claims at concrete tables *)

(** C5 at the table whose second row has the tier [abc]: [main] ends
    with [ValueError] after its first line of output; and at the table
    whose first row has a full-width three after a no-break space as its
    tier: the node has the tier that the cell denotes. *)
Lemma tier_is_parsed_witness :
  (exists e st',
      main (Fixture.world Fixture.tree_abc Fixture.catalog_E1) Fixture.start = (Raise e, st')
      /\ format_error e
      /\ output st' = output Fixture.start
                      ++ [Print "Fetching tech tree from Google Sheets..."]
      /\ filter writes_file (output st') = filter writes_file (output Fixture.start))
  /\ fst (main (Fixture.world Fixture.tree_abc Fixture.catalog_E1) Fixture.start)
     = Raise (ValueError "abc")
  /\ (exists tech_nodes node tier_field,
         read_tech_tree (Fixture.world Fixture.tree_wide "") TECH_TREE_URL = Ok tech_nodes
         /\ Dict.get tech_nodes "A" = Some node
         /\ Ok (Fixture.nbsp +++ Fixture.wide_three) = Ok tier_field
         /\ PyStr.int tier_field = Some (tier node))
  /\ PyStr.int (Fixture.nbsp +++ Fixture.wide_three) = Some 3%Z.
Proof.
  pose proof (tier_is_parsed (Fixture.world Fixture.tree_abc Fixture.catalog_E1))
    as (_ & _ & _ & _ & _ & Hmain).
  pose proof (tier_is_parsed (Fixture.world Fixture.tree_wide ""))
    as (_ & Hstored & _).
  split; [|split; [|split]].
  - apply (Hmain Fixture.start
                 (Fixture.plain_DictReader Fixture.tree_abc)
                 [("Node", "B"); ("Tier", "abc"); ("Description", "second");
                  ("Prerequisites", "A")]
                 "abc").
    + vm_compute. reflexivity.
    + vm_compute. auto.
    + reflexivity.
    + reflexivity.
  - vm_compute. reflexivity.
  - apply (Hstored TECH_TREE_URL []
                   [("Node", "A"); ("Tier", Fixture.nbsp +++ Fixture.wide_three);
                    ("Description", "first"); ("Prerequisites", "")]
                   [[("Node", "B"); ("Tier", "1"); ("Description", "second");
                     ("Prerequisites",
                      Fixture.wide_space +++ "A" +++ Fixture.nbsp +++ "," +++ Fixture.nbsp)]]
                   "A").
    + vm_compute. reflexivity.
    + each_row_ok.
    + reflexivity.
    + intros later [<-|[]] H. vm_compute in H. discriminate H.
  - vm_compute. reflexivity.
Defined.

(** C8 at a row whose cell has blanks around a name and two empty
    pieces, and at the table whose second row has an ideographic space
    and no-break spaces in its cell. *)
Lemma prerequisites_are_split_witness :
  tech_node_of_row [("Node", "B"); ("Tier", "2"); ("Description", "third");
                    ("Prerequisites", "A, Z ,,A")]
  = Ok ("B", {| tier := 2; description := "third";
                prerequisites := ["A"; "Z"; "A"]; parts := [] |})
  /\ (exists field pieces,
         subscript [("Node", "B"); ("Tier", "2"); ("Description", "third");
                    ("Prerequisites", "A, Z ,,A")] "Prerequisites" = Ok field
         /\ pieces_of "," field pieces
         /\ Forall2 trimmed pieces (map PyStr.strip pieces)
         /\ ["A"; "Z"; "A"]
            = filter (fun t => negb (String.eqb t "")) (map PyStr.strip pieces))
  /\ (exists tech_nodes node,
         read_tech_tree (Fixture.world Fixture.tree_wide "") TECH_TREE_URL = Ok tech_nodes
         /\ Dict.get tech_nodes "B" = Some node
         /\ prerequisites node = ["A"]).
Proof.
  split; [reflexivity|]. split.
  - apply (proj1 (prerequisites_are_split (Fixture.world "" ""))
                 [("Node", "B"); ("Tier", "2"); ("Description", "third");
                  ("Prerequisites", "A, Z ,,A")]
                 "B"
                 {| tier := 2; description := "third";
                    prerequisites := ["A"; "Z"; "A"]; parts := [] |}).
    reflexivity.
  - destruct (proj1 (proj2 (prerequisites_are_split (Fixture.world Fixture.tree_wide "")))
                    TECH_TREE_URL
                    [[("Node", "A"); ("Tier", Fixture.nbsp +++ Fixture.wide_three);
                      ("Description", "first"); ("Prerequisites", "")]]
                    [("Node", "B"); ("Tier", "1"); ("Description", "second");
                     ("Prerequisites",
                      Fixture.wide_space +++ "A" +++ Fixture.nbsp +++ "," +++ Fixture.nbsp)]
                    []
                    "B")
      as (tn & nd & field & pieces & Hread & Hget & Hfield & (Hjoin & _) & _ & Hp).
    + vm_compute. reflexivity.
    + each_row_ok.
    + reflexivity.
    + intros later [].
    + exists tn, nd. split; [exact Hread|]. split; [exact Hget|].
      assert (Hrun : read_tech_tree (Fixture.world Fixture.tree_wide "") TECH_TREE_URL
                     = Ok [("A", {| tier := 3; description := "first";
                                    prerequisites := []; parts := [] |});
                           ("B", {| tier := 1; description := "second";
                                    prerequisites := ["A"]; parts := [] |})])
        by (vm_compute; reflexivity).
      rewrite Hrun in Hread. injection Hread as <-.
      injection Hget as <-. reflexivity.
Defined.

(** C9 at the table in which B occurs twice: the entry of B is that of
    the second of the two rows. *)
Lemma duplicate_node_last_wins_witness :
  exists tech_nodes node tier_field prerequisites_field,
    read_tech_tree (Fixture.world Fixture.tree_ABB "") TECH_TREE_URL = Ok tech_nodes
    /\ Dict.get tech_nodes "B" = Some node
    /\ subscript [("Node", "B"); ("Tier", "2"); ("Description", "third");
                  ("Prerequisites", "A, Z ,,A")] "Tier" = Ok tier_field
    /\ PyStr.int tier_field = Some (tier node)
    /\ subscript [("Node", "B"); ("Tier", "2"); ("Description", "third");
                  ("Prerequisites", "A, Z ,,A")] "Description" = Ok (description node)
    /\ subscript [("Node", "B"); ("Tier", "2"); ("Description", "third");
                  ("Prerequisites", "A, Z ,,A")] "Prerequisites" = Ok prerequisites_field
    /\ prerequisites node = prerequisites_of prerequisites_field
    /\ parts node = []
    /\ Dict.wf tech_nodes
    /\ count_occ string_dec (Dict.keys tech_nodes) "B" = 1.
Proof.
  apply (duplicate_node_last_wins
           (Fixture.world Fixture.tree_ABB "") TECH_TREE_URL
           (Fixture.plain_DictReader Fixture.tree_ABB)
           [[("Node", "A"); ("Tier", "0"); ("Description", "first"); ("Prerequisites", "")]]
           [] []
           [("Node", "B"); ("Tier", "1"); ("Description", "second"); ("Prerequisites", "A")]
           [("Node", "B"); ("Tier", "2"); ("Description", "third");
            ("Prerequisites", "A, Z ,,A")]
           "B").
  - vm_compute. reflexivity.
  - vm_compute. reflexivity.
  - reflexivity.
  - reflexivity.
  - intros row [].
  - each_row_ok.
Defined.

Example duplicate_node_run :
  read_tech_tree (Fixture.world Fixture.tree_ABB "") TECH_TREE_URL
  = Ok [("A", {| tier := 0; description := "first"; prerequisites := []; parts := [] |});
        ("B", {| tier := 2; description := "third";
                 prerequisites := ["A"; "Z"; "A"]; parts := [] |})].
Proof. vm_compute. reflexivity. Qed.

(** C7 at the catalog whose second part has a node cell of one blank. *)
Lemma tech_node_field_normalized_witness :
  exists parts_read st',
    read_parts_catalog (Fixture.world "" Fixture.catalog_blank) PARTS_LIST_URL Fixture.start
    = (Ok parts_read, st')
    /\ List.length parts_read = 2.
Proof.
  destruct (tech_node_field_normalized
              (Fixture.world "" Fixture.catalog_blank) PARTS_LIST_URL
              (Fixture.plain_DictReader Fixture.catalog_blank) Fixture.start)
    as (parts_read & st' & Hrun & Hlen & _).
  - vm_compute. reflexivity.
  - each_row_ok.
  - exists parts_read, st'. split; [exact Hrun | exact Hlen].
Defined.

(** C7 as stated fails for a cell of blanks: it trims to the empty
    string, and the part's field is that string, not [None]. *)
Lemma blank_tech_node_counterexample :
  exists record,
    part_of_row [("Category", "Fuel"); ("Name", "F2"); ("Tech Node", " "); ("Size", "")]
    = Ok record
    /\ PyStr.strip " " = ""
    /\ tech_node record = Some ""
    /\ tech_node record <> None.
Proof.
  eexists. split; [reflexivity|]. split; [reflexivity|]. split; [reflexivity|].
  discriminate.
Qed.

(** The first scenario of the specification, run by [main]: the part
    without node makes the unassigned list non-empty, and the run ends
    in the [NameError] before anything is rendered or written. *)
Example scenario_run :
  exists st',
    main (Fixture.world Fixture.tree_AB Fixture.catalog_E1_F1) Fixture.start
    = (Raise (NameError "size_str"), st')
    /\ filter writes_file (output st') = [].
Proof. eexists. split; vm_compute; reflexivity. Qed.

(** The same tables without the unassigned part: node A is labelled with
    its part and size, B has no parts, and there is the one edge. *)
Example scenario_without_unassigned :
  exists graph,
    create_tech_tree_graph
      [("A", {| tier := 0; description := "first"; prerequisites := []; parts := [0] |});
       ("B", {| tier := 1; description := "second"; prerequisites := ["A"]; parts := [] |})]
      [] (Fixture.store [Fixture.engine])
    = (Ok graph, Fixture.store [Fixture.engine])
    /\ nodes graph
       = [("A", [("label", "<<B>A</B><BR/><FONT POINT-SIZE=" +++ PyStr.dq +++ "9" +++ PyStr.dq
                           +++ "><BR/>  • E1 (Small)</FONT>>");
                 ("fillcolor", "lightblue")]);
          ("B", [("label", "<<B>B</B>>"); ("fillcolor", "lightblue")])]
    /\ edges graph = [("A", "B")].
Proof. eexists. repeat split; reflexivity. Qed.

(** C2 at the mapping with the keys A and the empty string: the engine
    is appended to A, the part without node and the part whose node is
    the empty string stay unassigned, in input order. *)
Lemma assign_parts_routing_witness :
  exists tech_nodes' unassigned,
    assign_parts_to_nodes
      [("A", Fixture.leaf 0); ("", Fixture.leaf 1)] [2; 0; 1]
      (Fixture.store [Fixture.fuel; Fixture.engine; Fixture.tank])
    = (Ok (tech_nodes', unassigned),
       Fixture.store [Fixture.fuel; Fixture.engine; Fixture.tank])
    /\ (exists node', Dict.get tech_nodes' "A" = Some node' /\ parts node' = [1])
    /\ unassigned = [2; 0].
Proof.
  destruct (assign_parts_routing
              [("A", Fixture.leaf 0); ("", Fixture.leaf 1)] [2; 0; 1]
              (Fixture.store [Fixture.fuel; Fixture.engine; Fixture.tank]))
    as (tn' & ua & Hrun & Hnodes & Hua & _).
  exists tn', ua. split; [exact Hrun|]. split; [|exact Hua].
  apply (Hnodes "A" (Fixture.leaf 0)). reflexivity.
Defined.

(** C3 at the mapping in which B names the prerequisites A, which is a
    node, and Z, which is none. *)
Lemma create_tech_tree_graph_edges_witness :
  exists graph,
    create_tech_tree_graph
      [("A", Fixture.leaf 0);
       ("B", {| tier := 1; description := ""; prerequisites := ["A"; "Z"]; parts := [] |})]
      [] Fixture.start
    = (Ok graph, Fixture.start)
    /\ edges graph = [("A", "B")].
Proof.
  destruct (create_tech_tree_graph_edges
              [("A", Fixture.leaf 0);
               ("B", {| tier := 1; description := ""; prerequisites := ["A"; "Z"];
                        parts := [] |})]
              [] Fixture.start)
    as (with_nodes & with_edges & _ & _ & _ & Hrun & Hedges & _).
  exists with_edges. split; [exact Hrun | exact Hedges].
Defined.

(* ================================================================== *)
(** ** The string functions on the values Python gives *)

Example strip_run :
  map PyStr.strip ["  ab c  "; " "; ""; "x"] = ["ab c"; ""; ""; "x"].
Proof. reflexivity. Qed.

(** White space beyond ASCII is taken off as well, also the separators
    FS and US; the zero-width space (U+200B) is no white space. *)
Example strip_wide_run :
  map PyStr.strip
      [Fixture.nbsp +++ "A" +++ Fixture.wide_space;
       PyStr.utf8 8232 +++ "a b" +++ PyStr.utf8 133;
       " " +++ PyStr.utf8 5760 +++ " ";
       String (ascii_of_nat 28) ("x" +++ String (ascii_of_nat 31) "");
       PyStr.utf8 8203]
  = ["A"; "a b"; ""; "x"; PyStr.utf8 8203].
Proof. vm_compute. reflexivity. Qed.

Example split_run :
  map (PyStr.split ",") ["a,b,,c,"; ""; ","] = [["a"; "b"; ""; "c"; ""]; [""]; [""; ""]].
Proof. reflexivity. Qed.

Example int_run :
  map PyStr.int [" 12 "; "-5"; "+1_000"; "007"; "-0"; "abc"; ""; "+"; "1__0"; "_1";
                 "1_"; "- 5"; "--5"; "1 2"; "0x10"]
  = [Some 12%Z; Some (-5)%Z; Some 1000%Z; Some 7%Z; Some 0%Z; None; None; None; None;
     None; None; None; None; None; None].
Proof. vm_compute. reflexivity. Qed.

(** Digits and white space of other scripts are read; a full-width plus
    sign, a superscript two and the separator FS are not. *)
Example int_wide_run :
  map PyStr.int
      [Fixture.nbsp +++ Fixture.wide_three;
       "1" +++ Fixture.wide_three;
       PyStr.utf8 1635;
       Fixture.wide_space +++ "-" +++ PyStr.utf8 65297 +++ "_" +++ PyStr.utf8 1634
         +++ String (ascii_of_nat 11) "";
       PyStr.utf8 120785 +++ PyStr.utf8 43217;
       PyStr.utf8 65291 +++ "1";
       PyStr.utf8 178;
       String (ascii_of_nat 28) "5"]
  = [Some 3%Z; Some 13%Z; Some 3%Z; Some (-12)%Z; Some 31%Z; None; None; None].
Proof. vm_compute. reflexivity. Qed.

(** A literal may have 4300 digits and no more; zeros in front count,
    signs, blanks and underscores do not. *)
Example int_limit_run :
  map PyStr.int
      [Fixture.zeros 4300; Fixture.zeros 4301;
       " -" +++ Fixture.zeros 4300 +++ " "; "0_" +++ Fixture.zeros 4300]
  = [Some 0%Z; None; Some 0%Z; None].
Proof. vm_compute. reflexivity. Qed.

Example html_escape_run : PyStr.html_escape "<a&b>'" = "&lt;a&amp;b&gt;&#x27;".
Proof. reflexivity. Qed.

Example sorted_run : sorted ["b"; "a"; "B"; ""; "ab"] = [""; "B"; "a"; "ab"; "b"].
Proof. reflexivity. Qed.

Example of_nat_run : map PyStr.of_nat [0; 7; 10; 205] = ["0"; "7"; "10"; "205"].
Proof. reflexivity. Qed.

(** The reader of tables on a text with empty lines, with a cell too
    many, and with an empty first line, which leaves the rows without
    named cells. *)
Example plain_DictReader_run :
  map Fixture.plain_DictReader
      [Fixture.line ["Node"; "Tier"] +++ Fixture.nl
       +++ Fixture.line ["A"; "0"; "x"] +++ Fixture.nl;
       Fixture.nl +++ Fixture.line ["Node"; "Tier"] +++ Fixture.line ["A"; "0"];
       ""]
  = [[[("Node", "A"); ("Tier", "0")]]; [[]; []]; []].
Proof. vm_compute. reflexivity. Qed.

(** [open] where there are no files. *)
Example no_files_run :
  map Fixture.no_files
      [""; "a"; "a/.."; "."; ".//."; "/"; Fixture.zeros 255; Fixture.zeros 256;
       "a/" +++ Fixture.zeros 256; Fixture.zeros 256 +++ "/a";
       "/" +++ Fixture.zeros 200 +++ "/" +++ Fixture.zeros 200;
       String Ascii.zero "a"]
  = [Raise FileNotFoundError; Raise FileNotFoundError; Raise FileNotFoundError;
     Raise (OSError 21); Raise (OSError 21); Raise (OSError 21);
     Raise FileNotFoundError; Raise (OSError 36);
     Raise FileNotFoundError; Raise (OSError 36);
     Raise FileNotFoundError;
     Raise (ValueError (String Ascii.zero "a"))].
Proof. vm_compute. reflexivity. Qed.

(** The tables with characters beyond ASCII: tier, prerequisites and the
    node of the part are those that Python reads. *)
Example wide_tables_run :
  read_tech_tree (Fixture.world Fixture.tree_wide "") TECH_TREE_URL
  = Ok [("A", {| tier := 3; description := "first"; prerequisites := []; parts := [] |});
        ("B", {| tier := 1; description := "second"; prerequisites := ["A"];
                 parts := [] |})]
  /\ fst (read_parts_catalog (Fixture.world Fixture.tree_wide Fixture.catalog_wide)
                             PARTS_LIST_URL Fixture.start)
     = Ok [0]
  /\ part_at (snd (read_parts_catalog (Fixture.world Fixture.tree_wide Fixture.catalog_wide)
                                      PARTS_LIST_URL Fixture.start)) 0
     = Fixture.engine
  /\ fst (main (Fixture.world Fixture.tree_wide Fixture.catalog_wide) Fixture.start)
     = Ok tt.
Proof. repeat split; vm_compute; reflexivity. Qed.

(** On a disk that cannot be written, [main] renders the graph and ends
    with the error of [open] before the last line. *)
Example read_only_run :
  exists graph st',
    main (Fixture.read_only Fixture.tree_AB Fixture.catalog_E1) Fixture.start
    = (Raise (OSError 30), st')
    /\ filter writes_file (output st') = [Render graph "tech_tree"]
    /\ last (output st') (Print "") = Print "Graph saved as tech_tree.png".
Proof. eexists _, _. split; [|split]; vm_compute; reflexivity. Qed.

(* ================================================================== *)
(** ** More on [read_tech_tree] *)

Lemma filter_twice {A} (f g : A -> bool) (l : list A) :
  filter f (filter g l) = filter (fun x => g x && f x) l.
Proof.
  induction l as [|x r IH]; simpl; [reflexivity|].
  destruct (g x); simpl; [destruct (f x); now rewrite IH | exact IH].
Qed.

Lemma filter_all {A} (f : A -> bool) (l : list A) :
  (forall x, f x = true) -> filter f l = l.
Proof.
  intros H. induction l as [|x r IH]; simpl; [reflexivity|]. now rewrite H, IH.
Qed.

Lemma contains_set {V} (d : Dict.t V) (k k' : string) (v : V) :
  Dict.contains (Dict.set d k v) k' = String.eqb k k' || Dict.contains d k'.
Proof.
  unfold Dict.contains. rewrite get_set. destruct (String.eqb k k'); reflexivity.
Qed.

(** Keys come into a dict in the order in which they are first set. *)
Lemma keys_after_sets {V} (entries : list (string * V)) : forall (d : Dict.t V),
  Dict.keys (fold_left (fun d kv => Dict.set d (fst kv) (snd kv)) entries d)
  = Dict.keys d
    ++ filter (fun k => negb (Dict.contains d k)) (first_seen (map fst entries)).
Proof.
  induction entries as [|[k v] rest IH]; intros d; simpl.
  - now rewrite app_nil_r.
  - rewrite IH, keys_set, filter_twice.
    assert (Hf : filter (fun k' => negb (Dict.contains (Dict.set d k v) k'))
                        (first_seen (map fst rest))
                 = filter (fun x => negb (String.eqb k x) && negb (Dict.contains d x))
                          (first_seen (map fst rest))).
    { apply filter_ext. intros x. rewrite contains_set. apply negb_orb. }
    rewrite Hf. destruct (Dict.contains d k); simpl; [reflexivity|].
    now rewrite <- app_assoc.
Qed.

Lemma In_set {V} (d : Dict.t V) (k : string) (v : V) (kv : string * V) :
  In kv (Dict.set d k v) -> In kv d \/ kv = (k, v).
Proof.
  induction d as [|[k0 v0] r IH]; simpl.
  - intros [<-|[]]. now right.
  - destruct (String.eqb_spec k0 k) as [->|Hne]; simpl.
    + intros [<-|H]; auto.
    + intros [<-|H]; [auto|]. destruct (IH H); auto.
Qed.

Lemma In_after_sets {V} (entries : list (string * V)) : forall (d : Dict.t V) kv,
  In kv (fold_left (fun d kv => Dict.set d (fst kv) (snd kv)) entries d) ->
  In kv d \/ In kv entries.
Proof.
  induction entries as [|[k v] rest IH]; intros d kv; simpl; [auto|].
  intros H. destruct (IH _ _ H) as [H'|H']; [|auto].
  destruct (In_set _ _ _ _ H') as [H''| ->]; auto.
Qed.


(** X1.  The mapping [read_tech_tree] returns has the Node cells of the
    rows as its keys, each once, in the order in which they first occur,
    and none of its nodes holds a part. *)
Theorem read_tech_tree_shape (W : World) (data_source : string) (tech_nodes : TechNodes) :
  read_tech_tree W data_source = Ok tech_nodes ->
  exists rows names,
    reader_of W data_source = Ok rows
    /\ Forall2 (fun row node_name => subscript row "Node" = Ok node_name) rows names
    /\ Dict.keys tech_nodes = first_seen names
    /\ Dict.wf tech_nodes
    /\ no_parts_yet tech_nodes.
Proof.
  intros Hread.
  destruct (read_tech_tree_ok _ _ _ Hread) as (rows & entries & Hreader & Hall & ->).
  exists rows, (map fst entries). split; [exact Hreader|]. split; [|split; [|split]].
  - clear -Hall. induction Hall as [|row [k nd] rows entries Hrow _ IH]; constructor.
    + apply tech_node_of_row_ok in Hrow. apply Hrow.
    + exact IH.
  - rewrite keys_after_sets. simpl. apply filter_all. reflexivity.
  - apply wf_after_sets. constructor.
  - unfold no_parts_yet, Dict.values. apply Forall_forall. intros nd Hnd.
    apply in_map_iff in Hnd. destruct Hnd as ([k nd'] & <- & Hin).
    apply In_after_sets in Hin. destruct Hin as [[]|Hin].
    destruct (Forall2_In_right _ _ _ _ Hall Hin) as (row & _ & Hrow).
    apply tech_node_of_row_ok in Hrow.
    destruct Hrow as (_ & t & p & _ & _ & _ & _ & _ & Hparts). exact Hparts.
Qed.


(** What the loop body of [read_tech_tree] raises for a row without one
    of its columns. *)
Lemma tech_node_of_row_missing (row : Row) :
  (forall c, first_missing ["Node"; "Tier"] row = Some c ->
             tech_node_of_row row = Raise (KeyError c))
  /\ (forall c tier_field tier_value,
         first_missing ["Node"] row = None ->
         Dict.get row "Tier" = Some tier_field ->
         PyStr.int tier_field = Some tier_value ->
         first_missing ["Description"; "Prerequisites"] row = Some c ->
         tech_node_of_row row = Raise (KeyError c)).
Proof.
  unfold tech_node_of_row, int_of, rbind, subscript. simpl. split.
  - intros c. destruct (Dict.get row "Node"); [|intros [= <-]; reflexivity].
    destruct (Dict.get row "Tier"); [discriminate | intros [= <-]; reflexivity].
  - intros c t z. destruct (Dict.get row "Node"); [|discriminate].
    intros _ -> ->. destruct (Dict.get row "Description"); [|intros [= <-]; reflexivity].
    destruct (Dict.get row "Prerequisites"); [discriminate | intros [= <-]; reflexivity].
Qed.

(** X3.  A column the table lacks is missed at the first row, which has
    the cells of the header's columns: [read_tech_tree] raises [KeyError]
    with the name of the first column it looks for in vain.  Node and Tier
    come first; Description and Prerequisites are looked up only after the
    tier was read as a number.  The rows after the first play no part; a
    table without rows gives the empty mapping, whatever its columns. *)
Theorem tree_missing_column (W : World) (data_source : string) :
  (reader_of W data_source = Ok [] -> read_tech_tree W data_source = Ok [])
  /\ (forall row after,
         reader_of W data_source = Ok (row :: after) ->
         (forall c, first_missing ["Node"; "Tier"] row = Some c ->
                    read_tech_tree W data_source = Raise (KeyError c))
         /\ (forall c tier_field tier_value,
                first_missing ["Node"] row = None ->
                Dict.get row "Tier" = Some tier_field ->
                PyStr.int tier_field = Some tier_value ->
                first_missing ["Description"; "Prerequisites"] row = Some c ->
                read_tech_tree W data_source = Raise (KeyError c))).
Proof.
  split.
  - intros Hreader. unfold read_tech_tree, rbind. now rewrite Hreader.
  - intros row after Hreader. unfold read_tech_tree, rbind. rewrite Hreader.
    destruct (tech_node_of_row_missing row) as (H1 & H2). split.
    + intros c Hc.
      apply (read_tech_tree_rows_first_error [] after row); [constructor | now apply H1].
    + intros c t z Hn Ht Hz Hc.
      apply (read_tech_tree_rows_first_error [] after row);
        [constructor | now apply (H2 c t z)].
Qed.

(* ================================================================== *)
(** ** More on [read_parts_catalog] *)

(** The loop over readable rows, with the allocation pointer. *)
Lemma read_parts_catalog_rows_alloc (rows : list Row) (records : list Part) :
  Forall2 (fun row record => part_of_row row = Ok record) rows records ->
  forall parts st,
  exists st',
    read_parts_catalog_rows rows parts st
    = (Ok (parts ++ seq (next_ref st) (List.length rows)), st')
    /\ next_ref st' = next_ref st + List.length rows
    /\ output st' = output st
    /\ (forall i record, nth_error records i = Some record ->
                         part_at st' (next_ref st + i) = record)
    /\ (forall r, r < next_ref st -> part_at st' r = part_at st r).
Proof.
  unfold read_parts_catalog_rows.
  induction 1 as [|row record rows records Hrow _ IH]; intros parts st; simpl.
  - exists st. rewrite app_nil_r. repeat split; [lia|].
    intros [|i] record; discriminate.
  - unfold bind at 1 2 3. unfold lift at 1. rewrite Hrow.
    unfold alloc at 1. unfold ret at 1.
    match goal with
    | |- context [for_each _ rows ?p ?s] =>
        destruct (IH p s) as (st' & Hrun & Hnext & Hout & Hnew & Hold)
    end.
    simpl in *. exists st'. rewrite Hrun, <- app_assoc. simpl.
    repeat split.
    + lia.
    + exact Hout.
    + intros [|i] rec Hrec; simpl in Hrec.
      * injection Hrec as <-. rewrite Nat.add_0_r, Hold by lia.
        now rewrite Nat.eqb_refl.
      * rewrite <- Nat.add_succ_comm. now apply Hnew.
    + intros r Hr. rewrite Hold by lia.
      destruct (Nat.eqb_spec r (next_ref st)); [lia | reflexivity].
Qed.

(** The loop returns only when every row can be read. *)
Lemma read_parts_catalog_rows_returns (rows : list Row) : forall parts st parts' st',
  read_parts_catalog_rows rows parts st = (Ok parts', st') ->
  Forall catalog_row_ok rows.
Proof.
  unfold read_parts_catalog_rows.
  induction rows as [|row rest IH]; intros parts st parts' st'; simpl; [constructor|].
  unfold bind at 1 2 3. unfold lift at 1.
  destruct (part_of_row row) as [record|e] eqn:Er; [|discriminate].
  unfold alloc at 1. unfold ret at 1. intros H.
  constructor; [exists record; exact Er | eapply IH; exact H].
Qed.

Lemma part_of_row_missing (row : Row) (c : string) :
  first_missing ["Category"; "Name"; "Tech Node"; "Size"] row = Some c ->
  part_of_row row = Raise (KeyError c).
Proof.
  unfold part_of_row, rbind, subscript. simpl.
  destruct (Dict.get row "Category"); [|intros [= <-]; reflexivity].
  destruct (Dict.get row "Name"); [|intros [= <-]; reflexivity].
  destruct (Dict.get row "Tech Node"); [|intros [= <-]; reflexivity].
  destruct (Dict.get row "Size"); [discriminate | intros [= <-]; reflexivity].
Qed.

(** X4.  When every row can be read, [read_parts_catalog] returns one
    new reference per row, in row order: no reference occurs twice, none
    was in use before the call, the records that were in the store are
    unchanged, nothing is printed or written, and each new record holds
    the row's Category, Name and Size cells as they are. *)
Theorem read_parts_catalog_fresh (W : World) (data_source : string)
        (rows : list Row) (st : State) :
  reader_of W data_source = Ok rows ->
  Forall catalog_row_ok rows ->
  exists parts_read st',
    read_parts_catalog W data_source st = (Ok parts_read, st')
    /\ NoDup parts_read
    /\ (forall part, In part parts_read -> next_ref st <= part < next_ref st')
    /\ (forall r, r < next_ref st -> part_at st' r = part_at st r)
    /\ output st' = output st
    /\ Forall2 (fun row part =>
                  subscript row "Category" = Ok (category (part_at st' part))
                  /\ subscript row "Name" = Ok (name (part_at st' part))
                  /\ subscript row "Size" = Ok (size (part_at st' part)))
               rows parts_read.
Proof.
  intros Hreader Hok.
  destruct (catalog_rows_records rows Hok) as (records & Hall).
  destruct (read_parts_catalog_rows_alloc rows records Hall [] st)
    as (st' & Hrun & Hnext & Hout & Hnew & Hold).
  exists (seq (next_ref st) (List.length rows)), st'.
  split.
  { unfold read_parts_catalog, bind, lift. rewrite Hreader. exact Hrun. }
  split; [apply seq_NoDup|].
  split; [intros part Hin; apply in_seq in Hin; lia|].
  split; [exact Hold|]. split; [exact Hout|].
  clear Hrun Hnext Hold Hreader Hok. revert Hnew. generalize (next_ref st) as base.
  induction Hall as [|row record rows records Hrow _ IH]; intros base Hnew; simpl;
    constructor.
  - specialize (Hnew 0 record eq_refl). rewrite Nat.add_0_r in Hnew. rewrite Hnew.
    apply part_of_row_ok in Hrow. destruct Hrow as (f & Hc & Hn & _ & _ & Hs). auto.
  - apply IH. intros i rec Hrec. rewrite Nat.add_succ_comm. now apply (Hnew (S i)).
Qed.

(** X5.  A column the catalog lacks is missed at the first row, which
    has the cells of the header's columns: when it lacks one of Category,
    Name, Tech Node, Size, [read_parts_catalog] raises [KeyError] with the
    name of the first one it misses, and no record has been made: store
    and output are as before.  A catalog without rows gives the empty
    list, whatever its columns. *)
Theorem catalog_missing_column (W : World) (data_source : string) (st : State) :
  (reader_of W data_source = Ok [] ->
   read_parts_catalog W data_source st = (Ok [], st))
  /\ (forall row after c,
         reader_of W data_source = Ok (row :: after) ->
         first_missing ["Category"; "Name"; "Tech Node"; "Size"] row = Some c ->
         read_parts_catalog W data_source st = (Raise (KeyError c), st)).
Proof.
  split.
  - intros Hreader. unfold read_parts_catalog, bind, lift. now rewrite Hreader.
  - intros row after c Hreader Hc.
    unfold read_parts_catalog, bind, lift. rewrite Hreader.
    unfold read_parts_catalog_rows. simpl. unfold bind at 1 2. unfold lift at 1.
    now rewrite (part_of_row_missing row c Hc).
Qed.

Lemma flat_map_all_nil {A B} (f : A -> list B) (l : list A) :
  (forall x, In x l -> f x = []) -> flat_map f l = [].
Proof.
  induction l as [|x r IH]; simpl; [reflexivity|].
  intros H. rewrite (H x) by now left. simpl. apply IH. intros y Hy. apply H. now right.
Qed.

(** X6.  From the tables to the join: for a mapping [read_tech_tree]
    returned and the parts [read_parts_catalog] returned,
    [assign_parts_to_nodes] returns, and every part that was read is
    afterwards in exactly one place exactly once: the nodes' lists and the
    unassigned list together hold the parts read, without repetition. *)
Theorem pipeline_partition (W : World) (tree_source catalog_source : string)
        (tech_nodes : TechNodes) (parts_read : list PartRef) (st st' : State) :
  read_tech_tree W tree_source = Ok tech_nodes ->
  read_parts_catalog W catalog_source st = (Ok parts_read, st') ->
  exists tech_nodes' unassigned,
    assign_parts_to_nodes tech_nodes parts_read st' = (Ok (tech_nodes', unassigned), st')
    /\ Permutation (all_parts tech_nodes' ++ unassigned) parts_read
    /\ NoDup (all_parts tech_nodes' ++ unassigned).
Proof.
  intros Htree Hparts.
  assert (Hnd : NoDup parts_read).
  { unfold read_parts_catalog, bind, lift in Hparts.
    destruct (reader_of W catalog_source) as [rows|e]; [|discriminate].
    pose proof (read_parts_catalog_rows_returns _ _ _ _ _ Hparts) as Hok.
    destruct (catalog_rows_records rows Hok) as (records & Hall).
    destruct (read_parts_catalog_rows_alloc rows records Hall [] st) as (st2 & Hrun & _).
    rewrite Hrun in Hparts. injection Hparts as <- _. apply seq_NoDup. }
  assert (Hnone : all_parts tech_nodes = []).
  { destruct (read_tech_tree_ok _ _ _ Htree) as (rows & entries & _ & Hall & ->).
    unfold all_parts, Dict.items. apply flat_map_all_nil.
    intros [k nd] Hin. apply In_after_sets in Hin. destruct Hin as [[]|Hin].
    destruct (Forall2_In_right _ _ _ _ Hall Hin) as (row & _ & Hrow).
    apply tech_node_of_row_ok in Hrow.
    destruct Hrow as (_ & t & p & _ & _ & _ & _ & _ & Hp). exact Hp. }
  rewrite assign_fold.
  pose proof (assign_loop_permutation st' parts_read tech_nodes []) as Hperm.
  simpl in Hperm. rewrite Hnone in Hperm. simpl in Hperm.
  eexists _, _. split; [rewrite <- surjective_pairing; reflexivity|].
  split; [exact Hperm|].
  eapply Permutation_NoDup; [symmetry; exact Hperm | exact Hnd].
Qed.

(* ================================================================== *)
(** ** More on [assign_parts_to_nodes] *)

(** The unassigned list so far is only appended to. *)
Lemma assign_fold_unassigned (st : State) (parts_in : list PartRef) : forall tn ua,
  fold_left (assign_step st) parts_in (tn, ua)
  = (fst (fold_left (assign_step st) parts_in (tn, [])),
     ua ++ snd (fold_left (assign_step st) parts_in (tn, []))).
Proof.
  induction parts_in as [|part rest IH]; intros tn ua; simpl.
  - now rewrite app_nil_r.
  - unfold assign_step at 2 4 6. simpl.
    destruct (route st tn part) as [key|]; simpl.
    + apply IH.
    + rewrite (IH tn (ua ++ [part])), (IH tn [part]). simpl.
      now rewrite <- app_assoc.
Qed.

(** X7.  Assigning a list in two calls, the second on the mapping the
    first has changed, gives the mapping that one call on the whole list
    gives, and the two unassigned lists one after the other are the
    unassigned list of the whole. *)
Theorem assign_in_batches (tech_nodes tech_nodes1 tech_nodes2 : TechNodes)
        (first_batch second_batch unassigned1 unassigned2 : list PartRef) (st : State) :
  assign_parts_to_nodes tech_nodes first_batch st = (Ok (tech_nodes1, unassigned1), st) ->
  assign_parts_to_nodes tech_nodes1 second_batch st = (Ok (tech_nodes2, unassigned2), st) ->
  assign_parts_to_nodes tech_nodes (first_batch ++ second_batch) st
  = (Ok (tech_nodes2, unassigned1 ++ unassigned2), st).
Proof.
  rewrite !assign_fold, fold_left_app. intros [= H1] [= H2].
  rewrite H1, assign_fold_unassigned, H2. reflexivity.
Qed.

(** X8.  When no part of the input names a key of the mapping (its
    field is [None], empty, or no key; so for every input when the
    mapping is empty), the mapping is returned as it was and the
    unassigned list is the input list. *)
Theorem assign_nothing_to_assign (tech_nodes : TechNodes) (parts_in : list PartRef)
        (st : State) :
  (forall part key,
      In part parts_in ->
      tech_node (part_at st part) = Some key ->
      key = "" \/ Dict.contains tech_nodes key = false) ->
  assign_parts_to_nodes tech_nodes parts_in st = (Ok (tech_nodes, parts_in), st).
Proof.
  intros Hnone. rewrite assign_fold, assign_fold_unassigned. simpl.
  assert (H : forall ua, fold_left (assign_step st) parts_in (tech_nodes, ua)
                         = (tech_nodes, ua ++ parts_in)).
  { induction parts_in as [|part rest IH]; intros ua; simpl.
    - now rewrite app_nil_r.
    - assert (Hr : route st tech_nodes part = None).
      { pose proof (proj2 (unrouted_iff st tech_nodes part)) as Hu.
        unfold unrouted in Hu.
        destruct (route st tech_nodes part); [|reflexivity].
        discriminate Hu. intros key Hkey. apply (Hnone part key); [now left | exact Hkey]. }
      unfold assign_step at 2. simpl. rewrite Hr.
      rewrite IH, <- app_assoc; [reflexivity|].
      intros p k Hp. apply Hnone. now right. }
  rewrite H. reflexivity.
Qed.

(* ================================================================== *)
(** ** More on [create_tech_tree_graph] *)

Lemma fold_left_append {X} (f : X -> string) (xs : list X) : forall label,
  fold_left (fun label x => label +++ f x) xs label
  = label +++ String.concat "" (map f xs).
Proof.
  induction xs as [|x rest IH]; intros label.
  - simpl. now rewrite append_nil_r.
  - cbn [fold_left map]. rewrite IH, concat_empty_cons, append_assoc. reflexivity.
Qed.

(** Lines 122-134 build the label in one piece. *)
Lemma node_label_text (node_name : string) (node_data : TechNode) (st : State) :
  node_label node_name node_data st = (Ok (label_text st node_name node_data), st).
Proof.
  unfold node_label, label_text, bind, ret.
  destruct (parts node_data) as [|p ps].
  - rewrite !append_assoc. reflexivity.
  - rewrite (for_each_pure node_label_part (fun l p => l +++ bullet (part_at st p)) st)
      by (intros; apply node_label_part_bullet).
    rewrite fold_left_append, !append_assoc. reflexivity.
Qed.

Lemma add_tech_nodes_body (tech_nodes : TechNodes) (st : State) : forall dot,
  add_tech_nodes tech_nodes dot st
  = (Ok {| comment := comment dot;
           format := format dot;
           body := body dot
                   ++ map (fun kv =>
                             Node (fst kv)
                                  [("label", label_text st (fst kv) (snd kv));
                                   ("fillcolor", "lightblue")])
                          (Dict.items tech_nodes);
           subgraphs := subgraphs dot |},
     st).
Proof.
  unfold add_tech_nodes, Dict.items.
  induction tech_nodes as [|[node_name node_data] rest IH]; intros dot; simpl.
  - unfold ret. rewrite app_nil_r. destruct dot; reflexivity.
  - unfold bind at 1 2. rewrite node_label_text. unfold ret at 1.
    rewrite IH. simpl. now rewrite <- app_assoc.
Qed.

Lemma add_prerequisite_edges_body (tech_nodes : TechNodes) (dot : Digraph) :
  add_prerequisite_edges tech_nodes dot
  = {| comment := comment dot;
       format := format dot;
       body := body dot
               ++ map (fun e => Edge (fst e) (snd e)) (expected_edges tech_nodes);
       subgraphs := subgraphs dot |}.
Proof.
  unfold add_prerequisite_edges, expected_edges, Dict.items.
  set (known := Dict.contains tech_nodes). clearbody known. revert dot.
  induction tech_nodes as [|[node_name node_data] rest IH]; intros dot; simpl.
  - rewrite app_nil_r. destruct dot; reflexivity.
  - rewrite IH. clear IH. rewrite map_app.
    induction (prerequisites node_data) as [|p ps IHp] in dot |- *; simpl.
    + reflexivity.
    + destruct (known p); simpl.
      * rewrite IHp. simpl. now rewrite <- app_assoc.
      * apply IHp.
Qed.

(** X9.  Without unassigned parts [create_tech_tree_graph] returns, and
    the graph is this one: after the three attribute statements one node
    per entry of the mapping, in the order of the mapping, with the key as
    its id, the label of the node and the light blue fill; then the edges;
    no subgraph.  The state is as before. *)
Theorem graph_without_unassigned (tech_nodes : TechNodes) (st : State) :
  create_tech_tree_graph tech_nodes [] st
  = (Ok {| comment := "Tech Tree";
           format := "png";
           body := [Attr None [("rankdir", "TB"); ("ranksep", "1.0"); ("nodesep", "0.5")];
                    Attr (Some "node")
                         [("shape", "box"); ("style", "rounded,filled");
                          ("fillcolor", "lightblue"); ("fontname", "Arial")];
                    Attr (Some "edge") [("color", "darkblue"); ("arrowsize", "0.8")]]
                   ++ map (fun kv =>
                             Node (fst kv)
                                  [("label", label_text st (fst kv) (snd kv));
                                   ("fillcolor", "lightblue")])
                          (Dict.items tech_nodes)
                   ++ map (fun e => Edge (fst e) (snd e)) (expected_edges tech_nodes);
           subgraphs := [] |},
     st).
Proof.
  unfold create_tech_tree_graph, bind. rewrite add_tech_nodes_body.
  rewrite add_prerequisite_edges_body. simpl. unfold ret.
  reflexivity.
Qed.

(** X10.  [create_tech_tree_graph] never changes the state, whether it
    returns or raises; it returns only when the unassigned list is empty,
    so no graph it returns has the cluster of unassigned parts. *)
Theorem graph_never_has_cluster (tech_nodes : TechNodes)
        (unassigned_parts : list PartRef) (st : State) :
  snd (create_tech_tree_graph tech_nodes unassigned_parts st) = st
  /\ forall graph st',
       create_tech_tree_graph tech_nodes unassigned_parts st = (Ok graph, st') ->
       unassigned_parts = [] /\ subgraphs graph = [].
Proof.
  destruct (create_tech_tree_graph_cluster tech_nodes unassigned_parts st) as (dot & Hrun).
  destruct unassigned_parts as [|part rest].
  - split.
    + rewrite Hrun. reflexivity.
    + intros graph st' H. split; [reflexivity|].
      unfold create_tech_tree_graph, bind in H. rewrite add_tech_nodes_body in H.
      rewrite add_prerequisite_edges_body in H. simpl in H. unfold ret in H.
      injection H as <- _. reflexivity.
  - rewrite Hrun, add_unassigned_cluster_raises. split; [reflexivity | discriminate].
Qed.

(** Lines 151-155, one turn: the category gets its key if it has none,
    and the part goes to the end of the category's list. *)
Lemma group_turn_get (d : Dict.t (list PartRef)) (cat c : string) (part : PartRef) :
  Dict.get (Dict.update
              (if negb (Dict.contains d cat) then Dict.set d cat [] else d)
              cat (fun l => l ++ [part])) c
  = if String.eqb cat c
    then Some (match Dict.get d c with Some l => l | None => [] end ++ [part])
    else Dict.get d c.
Proof.
  rewrite get_update. unfold Dict.contains.
  destruct (String.eqb_spec cat c) as [->|Hne].
  - destruct (Dict.get d c) as [l|] eqn:G; simpl.
    + now rewrite G.
    + now rewrite get_set, String.eqb_refl.
  - destruct (Dict.get d cat); simpl; [reflexivity|].
    rewrite get_set. now apply String.eqb_neq in Hne as ->.
Qed.

Lemma group_turn_keys (d : Dict.t (list PartRef)) (cat : string) (part : PartRef) :
  Dict.keys (Dict.update
               (if negb (Dict.contains d cat) then Dict.set d cat [] else d)
               cat (fun l => l ++ [part]))
  = if Dict.contains d cat then Dict.keys d else Dict.keys d ++ [cat].
Proof.
  rewrite keys_update. destruct (Dict.contains d cat) eqn:E; simpl; [reflexivity|].
  now rewrite keys_set, E.
Qed.

Lemma first_seen_In (x : string) (names : list string) :
  In x (first_seen names) <-> In x names.
Proof.
  induction names as [|y r IH]; simpl; [tauto|].
  rewrite filter_In, IH. destruct (String.eqb_spec y x) as [->|Hne]; simpl.
  - tauto.
  - intuition congruence.
Qed.

Lemma first_seen_NoDup (names : list string) : NoDup (first_seen names).
Proof.
  induction names as [|y r IH]; simpl; constructor.
  - rewrite filter_In, String.eqb_refl. simpl. intros (_ & H). discriminate.
  - now apply NoDup_filter.
Qed.

(** X11.  Lines 150-155: the grouping of the unassigned parts has the
    categories as keys, each once, in the order in which they first occur
    in the list, and under each category the parts of that category in
    the order of the list; it reads the store only. *)
Theorem group_by_category_groups (unassigned_parts : list PartRef) (st : State) :
  exists by_category,
    group_by_category unassigned_parts st = (Ok by_category, st)
    /\ Dict.keys by_category
       = first_seen (map (fun part => category (part_at st part)) unassigned_parts)
    /\ Dict.wf by_category
    /\ forall cat,
         Dict.get by_category cat
         = if existsb (of_category st cat) unassigned_parts
           then Some (filter (of_category st cat) unassigned_parts)
           else None.
Proof.
  unfold group_by_category.
  set (turn := fun (d : Dict.t (list PartRef)) (part : PartRef) =>
                 Dict.update
                   (if negb (Dict.contains d (category (part_at st part)))
                    then Dict.set d (category (part_at st part)) []
                    else d)
                   (category (part_at st part)) (fun l => l ++ [part])).
  rewrite (for_each_pure _ turn st) by (intros; reflexivity).
  eexists. split; [reflexivity|].
  assert (Hkeys : forall group d,
             Dict.keys (fold_left turn group d)
             = Dict.keys d
               ++ filter (fun k => negb (Dict.contains d k))
                         (first_seen (map (fun part => category (part_at st part)) group))).
  { induction group as [|p rest IH]; intros d; simpl.
    - now rewrite app_nil_r.
    - rewrite IH, filter_twice. unfold turn. rewrite group_turn_keys.
      assert (Hf : forall l,
                 filter (fun k => negb (Dict.contains
                                          (Dict.update
                                             (if negb (Dict.contains d (category (part_at st p)))
                                              then Dict.set d (category (part_at st p)) []
                                              else d)
                                             (category (part_at st p)) (fun l => l ++ [p])) k)) l
                 = filter (fun x => negb (String.eqb (category (part_at st p)) x)
                                    && negb (Dict.contains d x)) l).
      { intros l. apply filter_ext. intros x. rewrite contains_update.
        destruct (Dict.contains d (category (part_at st p))) eqn:E; simpl.
        - destruct (String.eqb_spec (category (part_at st p)) x) as [<-|_];
            [now rewrite E | reflexivity].
        - rewrite contains_set. apply negb_orb. }
      rewrite Hf. destruct (Dict.contains d (category (part_at st p))); simpl;
        [reflexivity | now rewrite <- app_assoc]. }
  assert (Hget : forall group d cat,
             Dict.get (fold_left turn group d) cat
             = match Dict.get d cat with
               | Some l => Some (l ++ filter (of_category st cat) group)
               | None => if existsb (of_category st cat) group
                         then Some (filter (of_category st cat) group)
                         else None
               end).
  { induction group as [|p rest IH]; intros d cat; simpl.
    - destruct (Dict.get d cat); [now rewrite app_nil_r | reflexivity].
    - rewrite IH. unfold turn. rewrite group_turn_get. unfold of_category.
      destruct (String.eqb (category (part_at st p)) cat); simpl.
      + destruct (Dict.get d cat); simpl; [now rewrite <- app_assoc | reflexivity].
      + reflexivity. }
  split; [|split].
  - rewrite Hkeys. simpl. apply filter_all. reflexivity.
  - unfold Dict.wf. rewrite Hkeys. simpl. rewrite filter_all by reflexivity.
    apply first_seen_NoDup.
  - intros cat. rewrite Hget. reflexivity.
Qed.

(* ================================================================== *)
(** ** [main] *)

(** The two published addresses are remote sources. *)
Lemma reader_of_published (W : World) (url : string) :
  url = TECH_TREE_URL \/ url = PARTS_LIST_URL ->
  reader_of W url
  = match urlopen_read W url with
    | Ok text => Ok (DictReader W text)
    | Raise e => Raise e
    end.
Proof.
  intros [->| ->]; unfold reader_of, fetch_tsv_from_url, rbind.
  - replace (PyStr.startswith TECH_TREE_URL "http://"
             || PyStr.startswith TECH_TREE_URL "https://") with true
      by (vm_compute; reflexivity).
    reflexivity.
  - replace (PyStr.startswith PARTS_LIST_URL "http://"
             || PyStr.startswith PARTS_LIST_URL "https://") with true
      by (vm_compute; reflexivity).
    reflexivity.
Qed.

(** X12.  A fetch that fails ends [main] with the error of the fetch:
    for the tech tree after the first line of output, before the parts
    catalog is asked for; for the parts catalog after the second line.
    Nothing is rendered or written, and the store is untouched. *)
Theorem main_fetch_failure (W : World) (st : State) (e : exn) :
  (urlopen_read W TECH_TREE_URL = Raise e ->
   main W st
   = (Raise e, with_output st [Print "Fetching tech tree from Google Sheets..."]))
  /\ (forall tech_nodes,
         read_tech_tree W TECH_TREE_URL = Ok tech_nodes ->
         urlopen_read W PARTS_LIST_URL = Raise e ->
         main W st
         = (Raise e,
            with_output st [Print "Fetching tech tree from Google Sheets...";
                            Print "Fetching parts catalog from Google Sheets..."])).
Proof.
  split.
  - intros Hfetch.
    assert (Hread : read_tech_tree W TECH_TREE_URL = Raise e).
    { unfold read_tech_tree, rbind. rewrite reader_of_published by now left.
      now rewrite Hfetch. }
    cbv beta iota delta [main bind print emit lift]. rewrite Hread. reflexivity.
  - intros tn Hread Hfetch.
    cbv beta iota delta [main bind print emit lift]. rewrite Hread.
    cbv beta iota delta [read_parts_catalog bind lift].
    rewrite reader_of_published by now right. rewrite Hfetch.
    unfold with_output. simpl. now rewrite <- app_assoc.
Qed.

Lemma Forall2_In_left {A B} (R : A -> B -> Prop) (l : list A) (l' : list B) (x : A) :
  Forall2 R l l' -> In x l -> exists y, In y l' /\ R x y.
Proof.
  induction 1 as [|a b l l' Hab _ IH]; simpl; [tauto|].
  intros [<-|Hin]; [eauto|]. destruct (IH Hin) as (y & Hy & HR). eauto.
Qed.

(** The keys of the mapping are the Node cells of the rows. *)
Lemma read_tech_tree_contains (W : World) (data_source : string)
      (rows : list Row) (tech_nodes : TechNodes) (key : string) :
  reader_of W data_source = Ok rows ->
  read_tech_tree W data_source = Ok tech_nodes ->
  Dict.contains tech_nodes key = true
  <-> exists row, In row rows /\ subscript row "Node" = Ok key.
Proof.
  intros Hreader Hread.
  destruct (read_tech_tree_ok _ _ _ Hread) as (rows' & entries & Hreader' & Hall & ->).
  rewrite Hreader in Hreader'. injection Hreader' as <-.
  rewrite contains_keys, keys_after_sets. simpl.
  rewrite filter_all by reflexivity. rewrite first_seen_In, in_map_iff. split.
  - intros ([k nd] & <- & Hin).
    destruct (Forall2_In_right _ _ _ _ Hall Hin) as (row & Hrow & Hbuilt).
    exists row. split; [exact Hrow|]. apply tech_node_of_row_ok in Hbuilt. apply Hbuilt.
  - intros (row & Hrow & Hnode).
    destruct (Forall2_In_left _ _ _ _ Hall Hrow) as ([k nd] & Hin & Hbuilt).
    exists (k, nd). split; [|exact Hin].
    apply tech_node_of_row_ok in Hbuilt. destruct Hbuilt as (Hk & _).
    simpl. congruence.
Qed.

Lemma read_tech_tree_total (W : World) (data_source : string) (rows : list Row) :
  reader_of W data_source = Ok rows ->
  Forall tree_row_ok rows ->
  exists tech_nodes, read_tech_tree W data_source = Ok tech_nodes.
Proof.
  intros Hreader Hok. destruct (rows_ok_entries _ Hok) as (entries & Hall).
  eexists. unfold read_tech_tree, rbind. rewrite Hreader.
  apply read_tech_tree_rows_ok. exists entries. split; [exact Hall | reflexivity].
Qed.

Lemma read_parts_catalog_run (W : World) (data_source : string)
      (rows : list Row) (records : list Part) (st : State) :
  reader_of W data_source = Ok rows ->
  Forall2 (fun row record => part_of_row row = Ok record) rows records ->
  exists st',
    read_parts_catalog W data_source st
    = (Ok (seq (next_ref st) (List.length rows)), st')
    /\ output st' = output st
    /\ (forall i record, nth_error records i = Some record ->
                         part_at st' (next_ref st + i) = record).
Proof.
  intros Hreader Hall.
  destruct (read_parts_catalog_rows_alloc rows records Hall [] st)
    as (st' & Hrun & _ & Hout & Hnew & _).
  exists st'. split; [|split; assumption].
  unfold read_parts_catalog, bind, lift. rewrite Hreader. exact Hrun.
Qed.



(** Which of the parts just read stay unassigned: those whose node cell
    is blank or names no row of the tree. *)
Lemma catalog_part_unrouted (W : World) (tree_source : string)
      (tree_rows catalog_rows : list Row) (tech_nodes : TechNodes)
      (records : list Part) (st : State) (base i : nat) (row : Row) (field : string) :
  reader_of W tree_source = Ok tree_rows ->
  read_tech_tree W tree_source = Ok tech_nodes ->
  Forall2 (fun row record => part_of_row row = Ok record) catalog_rows records ->
  (forall i record, nth_error records i = Some record ->
                    part_at st (base + i) = record) ->
  nth_error catalog_rows i = Some row ->
  subscript row "Tech Node" = Ok field ->
  unrouted st tech_nodes (base + i) = true
  <-> (PyStr.strip field = ""
       \/ forall tree_row, In tree_row tree_rows ->
                           subscript tree_row "Node" <> Ok (PyStr.strip field)).
Proof.
  intros Hreader Hread Hall Hnew Hrow Hfield.
  destruct (Forall2_nth_error _ _ _ Hall i row Hrow) as (record & Hrec & Hbuilt).
  apply part_of_row_ok in Hbuilt. destruct Hbuilt as (f & _ & _ & Hf & Htn & _).
  rewrite Hfield in Hf. injection Hf as <-.
  unfold unrouted, route. rewrite (Hnew i record Hrec), Htn.
  destruct field as [|c r]; [simpl; split; auto|].
  cbn [PyStr.truthy].
  destruct (PyStr.truthy (PyStr.strip (String c r))) eqn:Et.
  - apply truthy_true in Et. simpl.
    destruct (Dict.contains tech_nodes (PyStr.strip (String c r))) eqn:Ec.
    + split; [discriminate|]. intros [H|H]; [congruence|].
      apply (read_tech_tree_contains _ _ _ _ _ Hreader Hread) in Ec.
      destruct Ec as (tree_row & Hin & Hnode). exfalso. exact (H tree_row Hin Hnode).
    + split; [|reflexivity]. intros _. right. intros tree_row Hin Hnode.
      assert (Dict.contains tech_nodes (PyStr.strip (String c r)) = true)
        by (apply (read_tech_tree_contains _ _ _ _ _ Hreader Hread); eauto).
      congruence.
  - apply truthy_false in Et. simpl. split; auto.
Qed.





(** X15.  When both tables can be read and some part has a node cell
    that is blank or names no node of the tree, [main] ends in the
    [NameError] of line 161 after its six lines of output, the fifth of
    which counts at least one unassigned part; nothing is rendered or
    written. *)
Theorem main_aborts_on_unassigned (W : World) (st : State)
        (tree_rows catalog_rows : list Row) (row : Row) (field : string) :
  reader_of W TECH_TREE_URL = Ok tree_rows ->
  Forall tree_row_ok tree_rows ->
  reader_of W PARTS_LIST_URL = Ok catalog_rows ->
  Forall catalog_row_ok catalog_rows ->
  In row catalog_rows ->
  subscript row "Tech Node" = Ok field ->
  (PyStr.strip field = ""
   \/ forall tree_row, In tree_row tree_rows ->
                       subscript tree_row "Node" <> Ok (PyStr.strip field)) ->
  exists tech_nodes left_over st',
    read_tech_tree W TECH_TREE_URL = Ok tech_nodes
    /\ main W st = (Raise (NameError "size_str"), st')
    /\ 0 < left_over
    /\ output st'
       = output st
         ++ [Print "Fetching tech tree from Google Sheets...";
             Print "Fetching parts catalog from Google Sheets...";
             Print "Assigning parts to tech nodes...";
             Print ("Found " +++ PyStr.of_nat (List.length tech_nodes)
                    +++ " tech nodes and "
                    +++ PyStr.of_nat (List.length catalog_rows) +++ " parts");
             Print (PyStr.of_nat left_over +++ " parts are unassigned");
             Print "Generating visualization..."].
Proof.
  intros Htree_reader Htree_ok Hcat_reader Hcat_ok Hrow Hfield Hblank.
  destruct (read_tech_tree_total _ _ _ Htree_reader Htree_ok) as (tn & Htree).
  destruct (catalog_rows_records _ Hcat_ok) as (records & Hall).
  cbv beta iota delta [main bind print emit lift]. rewrite Htree.
  match goal with
  | |- context [read_parts_catalog W PARTS_LIST_URL ?s] =>
      destruct (read_parts_catalog_run W PARTS_LIST_URL catalog_rows records s
                  Hcat_reader Hall) as (st2 & Hrun & Hout & Hnew)
  end.
  cbn [next_ref part_at output] in *.
  rewrite Hrun. cbv beta iota. cbn [next_ref part_at output]. rewrite assign_fold.
  match goal with
  | |- context [fold_left (assign_step ?s) ?l (tn, [])] =>
      pose proof (assign_loop_spec s l tn []) as (Hkeys & _ & Hua);
      destruct (fold_left (assign_step s) l (tn, [])) as [tn' ua]
  end.
  cbn [fst snd app] in Hkeys, Hua.
  assert (Hsome : exists part rest, ua = part :: rest).
  { destruct (In_nth_error _ _ Hrow) as (i & Hi).
    assert (Hin : In (next_ref st + i) ua).
    { rewrite Hua. apply filter_In. split.
      - apply in_seq. assert (i < List.length catalog_rows)
          by (apply nth_error_Some; congruence). lia.
      - apply (catalog_part_unrouted W TECH_TREE_URL tree_rows catalog_rows tn records
                 _ (next_ref st) i row field Htree_reader Htree Hall Hnew Hi Hfield).
        exact Hblank. }
    destruct ua as [|part rest]; [destruct Hin | eauto]. }
  clear Hua. destruct Hsome as (part & rest & ->).
  assert (Hlen : List.length tn' = List.length tn).
  { unfold Dict.keys in Hkeys. rewrite <- (length_map fst tn'), Hkeys. apply length_map. }
  rewrite Hlen, length_seq.
  match goal with
  | |- context [create_tech_tree_graph tn' (part :: rest) ?s] =>
      destruct (create_tech_tree_graph_cluster tn' (part :: rest) s) as (dot & Hcreate);
      rewrite Hcreate, add_unassigned_cluster_raises
  end.
  exists tn, (List.length (part :: rest)). eexists.
  split; [reflexivity|]. split; [reflexivity|]. split; [simpl; lia|].
  cbn [output]. rewrite Hout. rewrite <- !app_assoc. reflexivity.
Qed.

(* ================================================================== *)
(** ** The further properties at concrete tables *)

Lemma read_tech_tree_shape_witness :
  read_tech_tree (Fixture.world Fixture.tree_ABB "") TECH_TREE_URL = Ok Fixture.nodes_ABB
  /\ Dict.keys Fixture.nodes_ABB = ["A"; "B"]
  /\ Dict.wf Fixture.nodes_ABB
  /\ no_parts_yet Fixture.nodes_ABB.
Proof.
  assert (H : read_tech_tree (Fixture.world Fixture.tree_ABB "") TECH_TREE_URL
              = Ok Fixture.nodes_ABB) by (vm_compute; reflexivity).
  destruct (read_tech_tree_shape _ _ _ H) as (rows & names & _ & _ & _ & Hwf & Hnone).
  split; [exact H|]. split; [reflexivity|]. split; assumption.
Defined.


Lemma tree_missing_column_witness :
  read_tech_tree (Fixture.world Fixture.tree_short "") TECH_TREE_URL
  = Raise (KeyError "Description")
  /\ read_tech_tree (Fixture.world "" "") TECH_TREE_URL = Ok [].
Proof.
  split.
  - apply (proj2 (proj2 (tree_missing_column
                           (Fixture.world Fixture.tree_short "") TECH_TREE_URL)
                        [("Node", "A"); ("Tier", "0"); ("Prerequisites", "")] []
                        ltac:(vm_compute; reflexivity))
                 "Description" "0" 0%Z); reflexivity.
  - apply (proj1 (tree_missing_column (Fixture.world "" "") TECH_TREE_URL)).
    vm_compute. reflexivity.
Defined.

Lemma read_parts_catalog_fresh_witness :
  exists parts_read st',
    read_parts_catalog (Fixture.world "" Fixture.catalog_E1_F1) PARTS_LIST_URL
                       (Fixture.store [Fixture.tank])
    = (Ok parts_read, st')
    /\ NoDup parts_read
    /\ part_at st' 0 = Fixture.tank.
Proof.
  destruct (read_parts_catalog_fresh
              (Fixture.world "" Fixture.catalog_E1_F1) PARTS_LIST_URL
              (Fixture.plain_DictReader Fixture.catalog_E1_F1)
              (Fixture.store [Fixture.tank]))
    as (parts_read & st' & Hrun & Hnodup & _ & Hold & _).
  - vm_compute. reflexivity.
  - each_row_ok.
  - exists parts_read, st'. split; [exact Hrun|]. split; [exact Hnodup|].
    apply (Hold 0). simpl. lia.
Defined.

Lemma catalog_missing_column_witness :
  read_parts_catalog (Fixture.world "" Fixture.catalog_no_size) PARTS_LIST_URL
                     (Fixture.store [Fixture.tank])
  = (Raise (KeyError "Size"), Fixture.store [Fixture.tank])
  /\ read_parts_catalog (Fixture.world "" "") PARTS_LIST_URL Fixture.start
     = (Ok [], Fixture.start).
Proof.
  split.
  - apply (proj2 (catalog_missing_column
                    (Fixture.world "" Fixture.catalog_no_size) PARTS_LIST_URL
                    (Fixture.store [Fixture.tank]))
                 [("Category", "Engine"); ("Name", "E1"); ("Tech Node", "A")] [] "Size").
    + vm_compute. reflexivity.
    + reflexivity.
  - apply (proj1 (catalog_missing_column (Fixture.world "" "") PARTS_LIST_URL
                                         Fixture.start)).
    vm_compute. reflexivity.
Defined.

Lemma pipeline_partition_witness :
  exists parts_read st' tech_nodes' unassigned,
    read_parts_catalog (Fixture.world Fixture.tree_AB Fixture.catalog_E1_F1)
                       PARTS_LIST_URL Fixture.start
    = (Ok parts_read, st')
    /\ assign_parts_to_nodes
         [("A", {| tier := 0; description := "first"; prerequisites := []; parts := [] |});
          ("B", {| tier := 1; description := "second"; prerequisites := ["A"];
                   parts := [] |})]
         parts_read st'
       = (Ok (tech_nodes', unassigned), st')
    /\ NoDup (all_parts tech_nodes' ++ unassigned).
Proof.
  eexists _, _.
  destruct (pipeline_partition
              (Fixture.world Fixture.tree_AB Fixture.catalog_E1_F1)
              TECH_TREE_URL PARTS_LIST_URL
              [("A", {| tier := 0; description := "first"; prerequisites := [];
                        parts := [] |});
               ("B", {| tier := 1; description := "second"; prerequisites := ["A"];
                        parts := [] |})]
              [0; 1] Fixture.start
              (snd (read_parts_catalog
                      (Fixture.world Fixture.tree_AB Fixture.catalog_E1_F1)
                      PARTS_LIST_URL Fixture.start)))
    as (tn' & ua & Hrun & _ & Hnodup).
  - vm_compute. reflexivity.
  - vm_compute. reflexivity.
  - exists tn', ua. split; [vm_compute; reflexivity|]. split; [exact Hrun | exact Hnodup].
Defined.

Lemma assign_in_batches_witness :
  assign_parts_to_nodes [("A", Fixture.leaf 0)] ([1; 0] ++ [1])
                        (Fixture.store [Fixture.fuel; Fixture.engine])
  = (Ok ([("A", {| tier := 0; description := ""; prerequisites := []; parts := [1; 1] |})],
         [0] ++ []),
     Fixture.store [Fixture.fuel; Fixture.engine]).
Proof.
  apply (assign_in_batches
           [("A", Fixture.leaf 0)]
           [("A", {| tier := 0; description := ""; prerequisites := []; parts := [1] |})]
           [("A", {| tier := 0; description := ""; prerequisites := []; parts := [1; 1] |})]
           [1; 0] [1] [0] []); reflexivity.
Defined.

Lemma assign_nothing_to_assign_witness :
  assign_parts_to_nodes [] [1; 0] (Fixture.store [Fixture.fuel; Fixture.engine])
  = (Ok ([], [1; 0]), Fixture.store [Fixture.fuel; Fixture.engine]).
Proof.
  apply assign_nothing_to_assign. intros part key _ _. right. reflexivity.
Defined.

Lemma main_fetch_failure_witness :
  main Fixture.offline Fixture.start
  = (Raise (URLError TECH_TREE_URL),
     with_output Fixture.start [Print "Fetching tech tree from Google Sheets..."])
  /\ main (Fixture.tree_only Fixture.tree_AB) Fixture.start
     = (Raise (URLError PARTS_LIST_URL),
        with_output Fixture.start
                    [Print "Fetching tech tree from Google Sheets...";
                     Print "Fetching parts catalog from Google Sheets..."]).
Proof.
  split.
  - apply (proj1 (main_fetch_failure Fixture.offline Fixture.start
                                      (URLError TECH_TREE_URL))).
    reflexivity.
  - apply (proj2 (main_fetch_failure (Fixture.tree_only Fixture.tree_AB) Fixture.start
                                      (URLError PARTS_LIST_URL))
                 [("A", {| tier := 0; description := "first"; prerequisites := [];
                           parts := [] |});
                  ("B", {| tier := 1; description := "second"; prerequisites := ["A"];
                           parts := [] |})]).
    + vm_compute. reflexivity.
    + vm_compute. reflexivity.
Defined.


Lemma main_aborts_on_unassigned_witness :
  exists st',
    main (Fixture.world Fixture.tree_AB Fixture.catalog_E1_F1) Fixture.start
    = (Raise (NameError "size_str"), st')
    /\ filter writes_file (output st') = [].
Proof.
  destruct (main_aborts_on_unassigned
              (Fixture.world Fixture.tree_AB Fixture.catalog_E1_F1) Fixture.start
              (Fixture.plain_DictReader Fixture.tree_AB)
              (Fixture.plain_DictReader Fixture.catalog_E1_F1)
              [("Category", "Fuel"); ("Name", "F1"); ("Tech Node", ""); ("Size", "")]
              "")
    as (tn & k & st' & _ & Hrun & _ & Hout).
  - vm_compute. reflexivity.
  - each_row_ok.
  - vm_compute. reflexivity.
  - each_row_ok.
  - vm_compute. auto.
  - reflexivity.
  - left. reflexivity.
  - exists st'. split; [exact Hrun|]. rewrite Hout. reflexivity.
Defined.
